(** * Serial device detection and firmware upload ([serial_utils.py])

    A shallow embedding of [SerialDeviceDetector] and [FirmwareUploader].
    Python integers are [Z], byte strings are [list byte], text is
    [string], dictionaries with a fixed set of keys are records.  The
    serial driver, the file system and the progress callback are
    collaborators: they are an abstract environment reached through the
    operations of the class [Platform], and every call the program makes
    to them is recorded in a trace.  Logging has no effect on any result
    and is left out. *)

From Stdlib Require Import ZArith List String Ascii Bool Lia.
From Stdlib Require Import Strings.Byte DecimalString HexadecimalString.
From Stdlib Require Import Floats.SpecFloat.
Import ListNotations.

Local Open Scope string_scope.
Local Open Scope list_scope.
Local Open Scope Z_scope.

Definition bytes := list byte.

(** Byte-string literals of the source: [b"..."] is the list of the
    characters' bytes. *)
Definition b (s : string) : bytes := list_byte_of_string s.

(** The line feed, written [\n] in the source. *)
Definition LF : string := String (ascii_of_nat 10) EmptyString.

(** ** Ports and the registry of known devices *)

(** A [ListPortInfo] of pyserial, restricted to the attributes the
    program reads.  [vid] and [pid] are [None] when the port exposes no
    USB identifiers. *)
Record port_info := {
  device : string;
  description : string;
  vid : option Z;
  pid : option Z
}.

(** [KNOWN_DEVICES]: a dict iterates in insertion order, so it is an
    association list from label to the pair [(vid, pid)]. *)
Definition KNOWN_DEVICES : list (string * (Z * Z)) :=
  [ ("Arduino Uno",  (0x2341, 0x0043));
    ("Arduino Mega", (0x2341, 0x0010));
    ("ESP32",        (0x10C4, 0xEA60));
    ("ESP32_ALT",    (0x1A86, 0x7523));
    ("Arduino Nano", (0x1A86, 0x7523)) ].

Definition HANDSHAKE_COMMAND : bytes := b ("PING" ++ LF)%string.
Definition HANDSHAKE_RESPONSE : bytes := b "PONG".
Definition HANDSHAKE_TIMEOUT : Z := 2.

(** The [for device_name, ids in KNOWN_DEVICES.items()] loop of
    [identify_by_vid_pid], returning at the first match. *)
Fixpoint lookup_ids (items : list (string * (Z * Z))) (v p : Z) : option string :=
  match items with
  | [] => None
  | (device_name, (ivid, ipid)) :: items' =>
      if (v =? ivid) && (p =? ipid) then Some device_name
      else lookup_ids items' v p
  end.

Definition identify_by_vid_pid (port : port_info) : option string :=
  match vid port, pid port with
  | Some v, Some p => lookup_ids KNOWN_DEVICES v p
  | _, _ => None
  end.

(** ** The display view of [get_all_devices] *)

(** [hex(n)] of Python: a sign, [0x], and lower-case digits. *)
Definition hex (n : Z) : string :=
  let digits := HexadecimalString.NilZero.string_of_uint (N.to_hex_uint (Z.abs_N n)) in
  if n <? 0 then ("-0x" ++ digits)%string else ("0x" ++ digits)%string.

(** Truth value of an [Optional[int]]: [None] and [0] are false. *)
Definition truthy_int (x : option Z) : bool :=
  match x with
  | None => false
  | Some n => negb (n =? 0)
  end.

(** Truth value of an [Optional[str]]: [None] and the empty string are
    false. *)
Definition truthy_str (x : option string) : bool :=
  match x with
  | None | Some EmptyString => false
  | Some _ => true
  end.

Record device_entry := {
  entry_port : string;
  entry_device_type : string;
  entry_description : string;
  entry_vid : string;
  entry_pid : string
}.

(** [hex(x) if x else 'N/A'] *)
Definition render_id (x : option Z) : string :=
  match x with
  | Some n => if truthy_int x then hex n else "N/A"
  | None => "N/A"
  end.

(** [x or default] on an [Optional[str]]. *)
Definition str_or (x : option string) (default : string) : string :=
  match x with
  | Some name => if truthy_str x then name else default
  | None => default
  end.

(** The body of the loop of [get_all_devices], for one port. *)
Definition device_entry_of (port : port_info) : device_entry :=
  let device_type := identify_by_vid_pid port in
  {| entry_port := device port;
     entry_device_type := str_or device_type "Unknown";
     entry_description := description port;
     entry_vid := render_id (vid port);
     entry_pid := render_id (pid port) |}.

(** [get_all_devices] on the ports the enumeration returned. *)
Fixpoint get_all_devices_of (ports : list port_info) (devices : list device_entry)
  : list device_entry :=
  match ports with
  | [] => devices
  | port :: ports' => get_all_devices_of ports' (devices ++ [device_entry_of port])
  end.

(** ** Progress percentage: [int((bytes_sent / file_size) * 100)]

    [/] on two Python integers is the true division: the exact quotient
    rounded to the nearest binary64 number.  The product with [100] is a
    binary64 multiplication and [int] truncates toward zero.  The
    arithmetic is the IEEE 754 specification of the standard library at
    precision 53: [SFdiv] and [SFmul] round the exact quotient and
    product of their operands to nearest, ties to even.  The percentage
    is computed after a non-empty read only, so [file_size] is positive
    there and the division by zero of an empty file never occurs. *)
Module Float64.

Definition prec : Z := 53.
Definition emax : Z := 1024.

(** An integer as the binary64 operand it denotes. *)
Definition of_int (n : Z) : spec_float :=
  match n with
  | Z0 => S754_zero false
  | Zpos m => S754_finite false m 0
  | Zneg m => S754_finite true m 0
  end.

Definition truediv (x y : Z) : spec_float := SFdiv prec emax (of_int x) (of_int y).

Definition mul (x y : spec_float) : spec_float := SFmul prec emax x y.

(** [int(x)] for a finite [x]: the integer part. *)
Definition to_int (x : spec_float) : Z :=
  match x with
  | S754_finite s m (Zneg k) =>
      let q := Z.shiftr (Zpos m) (Zpos k) in if s then - q else q
  | S754_finite s m e =>
      let q := Z.shiftl (Zpos m) e in if s then - q else q
  | _ => 0
  end.

End Float64.

Definition progress_percent (bytes_sent file_size : Z) : Z :=
  Float64.to_int (Float64.mul (Float64.truediv bytes_sent file_size) (Float64.of_int 100)).

(** [str(n)] of an integer. *)
Definition str_int (n : Z) : string := DecimalString.NilZero.string_of_int (Z.to_int n).

(** [needle in hay] on byte strings: [needle] occurs as a contiguous
    run. *)
Fixpoint starts_with (needle hay : bytes) : bool :=
  match needle, hay with
  | [], _ => true
  | _ :: _, [] => false
  | x :: needle', y :: hay' => Byte.eqb x y && starts_with needle' hay'
  end.

Fixpoint bytes_in (needle hay : bytes) : bool :=
  starts_with needle hay ||
  match hay with
  | [] => false
  | _ :: hay' => bytes_in needle hay'
  end.

(** ** Exceptions

    The handlers of the program tell five kinds of exception apart.  A
    class stands for itself and its subclasses; [OSError] and
    [Exception] stand for the instances that are in none of the classes
    above them in this list, and [BaseException] for those that are not
    an [Exception] at all ([KeyboardInterrupt], [SystemExit]). *)
Inductive exn_class :=
| FileNotFoundError
| SerialException
| OSError
| Exception
| BaseException.

(** An exception: its class and [str(e)]. *)
Record exn := { class_of : exn_class; str_of : string }.

(** [isinstance(e, c)]: [FileNotFoundError] and [serial.SerialException]
    derive from [OSError], [OSError] from [Exception]. *)
Definition isinstance (e : exn) (c : exn_class) : bool :=
  match c, class_of e with
  | BaseException, _ => true
  | Exception, BaseException => false
  | Exception, _ => true
  | OSError, (FileNotFoundError | SerialException | OSError) => true
  | OSError, _ => false
  | FileNotFoundError, FileNotFoundError => true
  | FileNotFoundError, _ => false
  | SerialException, SerialException => true
  | SerialException, _ => false
  end.

(** A failure of the serial channel: pyserial raises
    [serial.SerialException], the operating system an [OSError]. *)
Record io_failure := { io_serial : bool; io_str : string }.

Definition exn_of_io (f : io_failure) : exn :=
  {| class_of := if io_serial f then SerialException else OSError;
     str_of := io_str f |}.

(** A [ValueError]: an [Exception] that is in none of the classes the
    handlers name before [Exception]. *)
Definition ValueError (msg : string) : exn :=
  {| class_of := Exception; str_of := msg |}.

(** The check of [serial.Serial] on its [baudrate] argument: an integer
    is accepted unless it is negative. *)
Definition valid_baudrate (baud : Z) : bool := 0 <=? baud.

Definition invalid_baudrate (baud : Z) : exn :=
  ValueError ("Not a valid baudrate: " ++ str_int baud).

(** What [read] of a buffered binary file raises for a size below
    [-1]. *)
Definition invalid_read_length : exn :=
  ValueError "read length must be non-negative or -1".

(** ** Decoding

    [data.decode('utf-8', errors='ignore')], the resulting [str] being
    held as its UTF-8 encoding.  A well-formed sequence is kept.  Of an
    ill-formed one the decoder drops what it has accepted of it: a byte
    that cannot start a sequence; a lead byte and the continuation
    bytes before the first wrong byte, decoding going on at that byte;
    all of a sequence that the end of the data cuts short. *)
Inductive utf8_lead :=
| Single
| Lead2
| Lead3
| Lead4
| InvalidStart.

Definition utf8_lead_of (x : byte) : utf8_lead :=
  let c := Byte.to_N x in
  if (c <? 128)%N then Single
  else if (c <? 194)%N then InvalidStart
  else if (c <? 224)%N then Lead2
  else if (c <? 240)%N then Lead3
  else if (c <? 245)%N then Lead4
  else InvalidStart.

Definition is_continuation (x : byte) : bool :=
  ((128 <=? Byte.to_N x) && (Byte.to_N x <? 192))%N.

(** The second byte of a sequence: a continuation byte, in a narrower
    range after the lead bytes [E0], [ED], [F0] and [F4] (no overlong
    form, no surrogate, nothing above U+10FFFF). *)
Definition second_byte_ok (lead x : byte) : bool :=
  let c := Byte.to_N lead in
  let d := Byte.to_N x in
  (is_continuation x &&
   negb ((c =? 224) && (d <? 160)) &&
   negb ((c =? 237) && (160 <=? d)) &&
   negb ((c =? 240) && (d <? 144)) &&
   negb ((c =? 244) && (144 <=? d)))%N.

Fixpoint utf8_ignore (data : bytes) : bytes :=
  match data with
  | [] => []
  | x :: rest =>
      match utf8_lead_of x with
      | Single => x :: utf8_ignore rest
      | InvalidStart => utf8_ignore rest
      | Lead2 =>
          match rest with
          | [] => []
          | x2 :: rest2 =>
              if is_continuation x2 then x :: x2 :: utf8_ignore rest2
              else utf8_ignore rest
          end
      | Lead3 =>
          match rest with
          | [] => []
          | x2 :: rest2 =>
              if second_byte_ok x x2 then
                match rest2 with
                | [] => []
                | x3 :: rest3 =>
                    if is_continuation x3 then x :: x2 :: x3 :: utf8_ignore rest3
                    else utf8_ignore rest2
                end
              else utf8_ignore rest
          end
      | Lead4 =>
          match rest with
          | [] => []
          | x2 :: rest2 =>
              if second_byte_ok x x2 then
                match rest2 with
                | [] => []
                | x3 :: rest3 =>
                    if is_continuation x3 then
                      match rest3 with
                      | [] => []
                      | x4 :: rest4 =>
                          if is_continuation x4
                          then x :: x2 :: x3 :: x4 :: utf8_ignore rest4
                          else utf8_ignore rest3
                      end
                    else utf8_ignore rest2
                end
              else utf8_ignore rest
          end
      end
  end.

Definition decode_ignore (data : bytes) : string :=
  string_of_list_byte (utf8_ignore data).

(** What [open(path, 'rb')] finds. *)
Inductive file_entry :=
| NoSuchFile
| Unreadable (why : string)
| Regular (content : bytes).

(** ** The environment and the trace of calls *)

(** A call of the program to a collaborator.  Delays are in
    milliseconds. *)
Inductive event :=
| EvComports
| EvSerialOpen (port : string) (baud : Z) (timeout : Z) (write_timeout : option Z)
| EvSerialClose (port : string)
| EvResetInput (port : string)
| EvResetOutput (port : string)
| EvWrite (port : string) (data : bytes)
| EvRead (port : string) (size : nat)
| EvSleep (ms : Z)
| EvFileOpen (path : string)
| EvFileClose (path : string)
| EvProgress (progress bytes_sent file_size : Z).

(** The collaborators, as transitions of an environment state [E]: the
    port enumeration, the serial driver (keyed by port name), the file
    system, the passing of time, and the decoding
    [bytes.decode('utf-8', errors='ignore')]. *)
Class Platform (E : Type) := {
  sys_comports : E -> list port_info * E;
  sys_open : string -> Z -> E -> option io_failure * E;
  sys_close : string -> E -> E;
  sys_reset_input : string -> E -> option io_failure * E;
  sys_reset_output : string -> E -> option io_failure * E;
  sys_write : string -> bytes -> E -> option io_failure * E;
  sys_read : string -> nat -> E -> (io_failure + bytes) * E;
  sys_file : string -> E -> file_entry;
  sys_sleep : Z -> E -> E;
  decode_utf8_ignore : bytes -> string
}.

(** A [serial.Serial] object: its identity and the port it is bound
    to.  Whether it is open is state of the world. *)
Record Serial := { handle : nat; ser_port : string }.

(** The progress callback: called with [(progress, bytes_sent,
    file_size)], it acts on the environment and returns or raises. *)
Definition callback (E : Type) := Z -> Z -> Z -> E -> option exn * E.

(** Outcome of a computation: a value or a raised exception. *)
Inductive res (A : Type) :=
| Ret (a : A)
| Raise (e : exn).
Arguments Ret {A} a.
Arguments Raise {A} e.

Record world (E : Type) := {
  env : E;
  trace : list event;
  next_handle : nat;
  open_handles : list nat
}.
Arguments env {E} w.
Arguments trace {E} w.
Arguments next_handle {E} w.
Arguments open_handles {E} w.

(** Computations: state passing over the world, with exceptions. *)
Definition M (E A : Type) := world E -> res A * world E.

Definition ret {E A} (a : A) : M E A := fun w => (Ret a, w).

Definition raise {E A} (e : exn) : M E A := fun w => (Raise e, w).

Definition bind {E A B} (m : M E A) (k : A -> M E B) : M E B :=
  fun w =>
    match m w with
    | (Ret a, w1) => k a w1
    | (Raise e, w1) => (Raise e, w1)
    end.

Declare Scope py_scope.
Delimit Scope py_scope with py.
Notation "x <- m ;; k" := (bind m (fun x => k))
  (at level 61, m at next level, right associativity) : py_scope.
Notation "m ;; k" := (bind m (fun _ => k))
  (at level 61, right associativity) : py_scope.
Open Scope py_scope.

(** [try: m  except ...: h]: [handler e] is the body of the first
    [except] clause that matches [e], if any. *)
Definition try_except {E A} (m : M E A) (handler : exn -> option (M E A)) : M E A :=
  fun w =>
    match m w with
    | (Ret a, w1) => (Ret a, w1)
    | (Raise e, w1) =>
        match handler e with
        | Some h => h w1
        | None => (Raise e, w1)
        end
    end.

(** Leaving a [with] block: [cleanup] runs on the normal and on the
    exceptional exit, then the outcome of the block stands. *)
Definition finally {E A} (m : M E A) (cleanup : M E unit) : M E A :=
  fun w =>
    match m w with
    | (r, w1) =>
        match cleanup w1 with
        | (Ret _, w2) => (r, w2)
        | (Raise e, w2) => (Raise e, w2)
        end
    end.

Section Program.

Context {E : Type} {P : Platform E}.

(** *** Calls to the collaborators *)

Definition log (ev : event) (w : world E) : world E :=
  {| env := env w; trace := trace w ++ [ev];
     next_handle := next_handle w; open_handles := open_handles w |}.

Definition with_env (e : E) (w : world E) : world E :=
  {| env := e; trace := trace w;
     next_handle := next_handle w; open_handles := open_handles w |}.

(** A call that may fail with a channel failure. *)
Definition io_call (ev : event) (op : E -> option io_failure * E) : M E unit :=
  fun w =>
    let w1 := log ev w in
    match op (env w1) with
    | (None, e) => (Ret tt, with_env e w1)
    | (Some f, e) => (Raise (exn_of_io f), with_env e w1)
    end.

(** [time.sleep] *)
Definition sleep (ms : Z) : M E unit :=
  fun w => let w1 := log (EvSleep ms) w in (Ret tt, with_env (sys_sleep ms (env w1)) w1).

(** [serial.tools.list_ports.comports()] *)
Definition list_all_ports : M E (list port_info) :=
  fun w =>
    let w1 := log EvComports w in
    let (ports, e) := sys_comports (env w1) in
    (Ret ports, with_env e w1).

(** [ser.is_open] *)
Definition is_open (ser : Serial) (w : world E) : bool :=
  existsb (Nat.eqb (handle ser)) (open_handles w).

(** [serial.Serial(port, baud, timeout=..., write_timeout=...)]: a new
    object, open when the constructor returns.  The constructor checks
    the baud rate before it asks the driver for the port: a negative one
    is refused with [ValueError], and the port is not opened. *)
Definition Serial_new (port : string) (baud timeout : Z) (write_timeout : option Z)
  : M E Serial :=
  fun w =>
    let w1 := log (EvSerialOpen port baud timeout write_timeout) w in
    if valid_baudrate baud then
      match sys_open port baud (env w1) with
      | (Some f, e) => (Raise (exn_of_io f), with_env e w1)
      | (None, e) =>
          let h := next_handle w1 in
          (Ret {| handle := h; ser_port := port |},
           {| env := e; trace := trace w1;
              next_handle := S h; open_handles := h :: open_handles w1 |})
      end
    else (Raise (invalid_baudrate baud), w1).

(** [ser.close()]: releases the port when the object is open, does
    nothing otherwise. *)
Definition Serial_close (ser : Serial) : M E unit :=
  fun w =>
    if is_open ser w then
      let w1 := log (EvSerialClose (ser_port ser)) w in
      (Ret tt,
       {| env := sys_close (ser_port ser) (env w1); trace := trace w1;
          next_handle := next_handle w1;
          open_handles := filter (fun h => negb (Nat.eqb (handle ser) h)) (open_handles w1) |})
    else (Ret tt, w).

Definition reset_input_buffer (ser : Serial) : M E unit :=
  io_call (EvResetInput (ser_port ser)) (sys_reset_input (ser_port ser)).

Definition reset_output_buffer (ser : Serial) : M E unit :=
  io_call (EvResetOutput (ser_port ser)) (sys_reset_output (ser_port ser)).

Definition write (ser : Serial) (data : bytes) : M E unit :=
  io_call (EvWrite (ser_port ser) data) (sys_write (ser_port ser) data).

(** [ser.read(size)]: at most [size] bytes. *)
Definition read (ser : Serial) (size : nat) : M E bytes :=
  fun w =>
    let w1 := log (EvRead (ser_port ser) size) w in
    match sys_read (ser_port ser) size (env w1) with
    | (inr data, e) => (Ret (firstn size data), with_env e w1)
    | (inl f, e) => (Raise (exn_of_io f), with_env e w1)
    end.

(** [with serial.Serial(...) as ser: body] *)
Definition with_serial {A} (port : string) (baud timeout : Z) (body : Serial -> M E A)
  : M E A :=
  ser <- Serial_new port baud timeout None ;;
  finally (body ser) (Serial_close ser).

(** [with open(path, 'rb') as f: body], [body] being given the content
    of the file. *)
Definition with_file {A} (path : string) (body : bytes -> M E A) : M E A :=
  fun w =>
    let w1 := log (EvFileOpen path) w in
    match sys_file path (env w1) with
    | NoSuchFile =>
        (Raise {| class_of := FileNotFoundError;
                  str_of := "[Errno 2] No such file or directory: " ++ path |}, w1)
    | Unreadable why => (Raise {| class_of := OSError; str_of := why |}, w1)
    | Regular content => finally (body content) (fun w2 => (Ret tt, log (EvFileClose path) w2)) w1
    end.

(** ** [SerialDeviceDetector] *)

Definition verify_by_handshake (port_name : string) (baud_rate : Z) : M E bool :=
  try_except
    (with_serial port_name baud_rate HANDSHAKE_TIMEOUT (fun ser =>
       sleep 500 ;;
       reset_input_buffer ser ;;
       write ser HANDSHAKE_COMMAND ;;
       sleep 100 ;;
       response <- read ser (List.length HANDSHAKE_RESPONSE) ;;
       if bytes_in HANDSHAKE_RESPONSE response then ret true else ret false))
    (fun e =>
       if isinstance e SerialException || isinstance e OSError
       then Some (ret false) else None).

(** The dict built for a detected device.  The keys [vid] and [pid] are
    missing from the dict of the handshake-only fallback: they are
    [None] there, and never [None] in an identified candidate. *)
Record candidate := {
  cand_port : string;
  cand_device_type : string;
  cand_description : string;
  cand_vid : option Z;
  cand_pid : option Z;
  cand_verified : bool
}.

Definition set_verified (c : candidate) (v : bool) : candidate :=
  {| cand_port := cand_port c; cand_device_type := cand_device_type c;
     cand_description := cand_description c;
     cand_vid := cand_vid c; cand_pid := cand_pid c; cand_verified := v |}.

(** The first loop of [detect_device]: [candidates] is the list built
    so far. *)
Fixpoint scan_ports (try_handshake : bool) (ports : list port_info)
  (candidates : list candidate) : M E (list candidate) :=
  match ports with
  | [] => ret candidates
  | port :: ports' =>
      let device_type := identify_by_vid_pid port in
      match device_type with
      | Some name =>
          if truthy_str device_type then
            let candidate :=
              {| cand_port := device port; cand_device_type := name;
                 cand_description := description port;
                 cand_vid := vid port; cand_pid := pid port;
                 cand_verified := false |} in
            verified <- (if try_handshake
                         then verify_by_handshake (device port) 115200
                         else ret true) ;;
            scan_ports try_handshake ports' (candidates ++ [set_verified candidate verified])
          else scan_ports try_handshake ports' candidates
      | None => scan_ports try_handshake ports' candidates
      end
  end.

Definition unknown_candidate (port : port_info) : candidate :=
  {| cand_port := device port; cand_device_type := "Unknown";
     cand_description := description port;
     cand_vid := None; cand_pid := None; cand_verified := true |}.

(** The second loop: handshake on every port, returning at the first
    that answers. *)
Fixpoint probe_ports (ports : list port_info) : M E (option candidate) :=
  match ports with
  | [] => ret None
  | port :: ports' =>
      ok <- verify_by_handshake (device port) 115200 ;;
      if ok then ret (Some (unknown_candidate port)) else probe_ports ports'
  end.

Definition detect_device (try_handshake : bool) : M E (option candidate) :=
  ports <- list_all_ports ;;
  match ports with
  | [] => ret None
  | _ :: _ =>
      candidates <- scan_ports try_handshake ports [] ;;
      let verified := filter cand_verified candidates in
      match verified with
      | v0 :: _ => ret (Some v0)
      | [] =>
          match candidates with
          | c0 :: _ => ret (Some c0)
          | [] => if try_handshake then probe_ports ports else ret None
          end
      end
  end.

(** [get_all_devices] *)
Definition get_all_devices : M E (list device_entry) :=
  ports <- list_all_ports ;;
  ret (get_all_devices_of ports []).

(** ** [FirmwareUploader] *)

Record FirmwareUploader := {
  port : string;
  baud_rate : Z;
  serial_conn : option Serial
}.

(** [__init__] *)
Definition FirmwareUploader_init (port : string) (baud_rate : Z) : FirmwareUploader :=
  {| port := port; baud_rate := baud_rate; serial_conn := None |}.

Definition set_serial_conn (self : FirmwareUploader) (ser : Serial) : FirmwareUploader :=
  {| port := port self; baud_rate := baud_rate self; serial_conn := Some ser |}.

(** [open_connection]: the result and the uploader after the call. *)
Definition open_connection (self : FirmwareUploader) : M E (bool * FirmwareUploader) :=
  try_except
    (ser <- Serial_new (port self) (baud_rate self) 5 (Some 5) ;;
     sleep 2000 ;;
     ret (true, set_serial_conn self ser))
    (fun e =>
       if isinstance e SerialException then Some (ret (false, self)) else None).

Definition close_connection (self : FirmwareUploader) : M E unit :=
  match serial_conn self with
  | Some ser =>
      fun w => if is_open ser w then Serial_close ser w else (Ret tt, w)
  | None => ret tt
  end.

(** The dict returned by [upload_firmware].  The keys [bytes_sent] and
    [response] are present in a success result only. *)
Record upload_result := {
  success : bool;
  message : string;
  bytes_sent : option Z;
  response : option string
}.

Definition failure (msg : string) : upload_result :=
  {| success := false; message := msg; bytes_sent := None; response := None |}.

(** [f.read(size)] on a file opened with ['rb'], at the current
    position: the chunk and the rest of the file.  The size [-1] reads
    to the end; a size below [-1] is refused with [ValueError], whatever
    is left of the file. *)
Definition file_read (size : Z) (rest : bytes) : res (bytes * bytes) :=
  if size <? -1 then Raise invalid_read_length
  else if size <? 0 then Ret (rest, [])
  else Ret (firstn (Z.to_nat size) rest, skipn (Z.to_nat size) rest).

(** [progress_callback(progress, bytes_sent, file_size)] *)
Definition call_progress (cb : callback E) (progress sent file_size : Z) : M E unit :=
  fun w =>
    let w1 := log (EvProgress progress sent file_size) w in
    match cb progress sent file_size (env w1) with
    | (None, e) => (Ret tt, with_env e w1)
    | (Some x, e) => (Raise x, with_env e w1)
    end.

(** One turn of the [while True] loop after a non-empty read. *)
Definition send_chunk (ser : Serial) (progress_callback : option (callback E))
  (file_size : Z) (chunk : bytes) (bytes_sent : Z) : M E Z :=
  write ser chunk ;;
  let bytes_sent := bytes_sent + Z.of_nat (List.length chunk) in
  match progress_callback with
  | Some cb => call_progress cb (progress_percent bytes_sent file_size) bytes_sent file_size
  | None => ret tt
  end ;;
  sleep 10 ;;
  ret bytes_sent.

(** The [while True] loop; [rest] is the unread part of the file.  Each
    turn reads at least one byte, so [fuel] at least the length of
    [rest] is never used up (lemma [upload_loop_fuel]). *)
Fixpoint upload_loop (fuel : nat) (ser : Serial) (chunk_size : Z)
  (progress_callback : option (callback E)) (file_size : Z)
  (rest : bytes) (bytes_sent : Z) : M E Z :=
  match file_read chunk_size rest with
  | Raise e => raise e
  | Ret (chunk, rest') =>
      match chunk, fuel with
      | [], _ => ret bytes_sent
      | _ :: _, O => ret bytes_sent
      | _ :: _, S fuel' =>
          bytes_sent <- send_chunk ser progress_callback file_size chunk bytes_sent ;;
          upload_loop fuel' ser chunk_size progress_callback file_size rest' bytes_sent
      end
  end.

(** The statements before the loop: both buffers are cleared and the
    start marker is sent. *)
Definition upload_start (ser : Serial) : M E unit :=
  reset_input_buffer ser ;;
  reset_output_buffer ser ;;
  write ser (b ("UPLOAD_START" ++ LF)) ;;
  sleep 500.

(** The body of the [try] statement of [upload_firmware]. *)
Definition upload_body (ser : Serial) (firmware_path : string) (chunk_size : Z)
  (progress_callback : option (callback E)) : M E upload_result :=
  with_file firmware_path (fun content =>
    let file_size := Z.of_nat (List.length content) in
    upload_start ser ;;
    bytes_sent <- upload_loop (List.length content) ser chunk_size progress_callback
                    file_size content 0 ;;
    write ser (b (LF ++ "UPLOAD_COMPLETE" ++ LF)) ;;
    sleep 500 ;;
    response <- read ser 100 ;;
    ret {| success := true;
           message := "Successfully uploaded " ++ str_int bytes_sent ++ " bytes";
           bytes_sent := Some bytes_sent;
           response := Some (decode_utf8_ignore response) |}).

(** The three [except] clauses, in order. *)
Definition upload_handler (firmware_path : string) (e : exn) : option (M E upload_result) :=
  if isinstance e FileNotFoundError then
    Some (ret (failure ("Firmware file not found: " ++ firmware_path)))
  else if isinstance e SerialException then
    Some (ret (failure ("Serial communication error: " ++ str_of e)))
  else if isinstance e Exception then
    Some (ret (failure ("Upload failed: " ++ str_of e)))
  else None.

Definition upload_firmware (self : FirmwareUploader) (firmware_path : string)
  (chunk_size : Z) (progress_callback : option (callback E)) : M E upload_result :=
  fun w =>
    match serial_conn self with
    | None => (Ret (failure "Serial connection not open"), w)
    | Some ser =>
        if negb (is_open ser w) then (Ret (failure "Serial connection not open"), w)
        else try_except (upload_body ser firmware_path chunk_size progress_callback)
                        (upload_handler firmware_path) w
    end.

End Program.

(** ** A test bench

    A concrete environment for running the program: a fixed set of
    attached ports and files, devices that answer every read with a
    fixed byte string, and ports that cannot be opened.  The driver of
    the bench opens an attached port at every baud rate that
    [serial.Serial] lets through to it. *)
Module Bench.

Record bench := {
  attached : list port_info;
  files : list (string * bytes);
  answer : string -> bytes;
  unplugged : list string
}.

Fixpoint find_file (path : string) (fs : list (string * bytes)) : file_entry :=
  match fs with
  | [] => NoSuchFile
  | (name, content) :: fs' =>
      if String.eqb path name then Regular content else find_file path fs'
  end.

#[global] Instance bench_platform : Platform bench := {
  sys_comports e := (attached e, e);
  sys_open port _ e :=
    if existsb (String.eqb port) (unplugged e)
    then (Some {| io_serial := true; io_str := "could not open port " ++ port |}, e)
    else (None, e);
  sys_close _ e := e;
  sys_reset_input _ e := (None, e);
  sys_reset_output _ e := (None, e);
  sys_write _ _ e := (None, e);
  sys_read port _ e := (inr (answer e port), e);
  sys_file path e := find_file path (files e);
  sys_sleep _ e := e;
  decode_utf8_ignore := decode_ignore
}.

Definition boot (e : bench) : world bench :=
  {| env := e; trace := []; next_handle := 0; open_handles := [] |}.

(** A callback that records nothing and never raises. *)
Definition quiet : callback bench := fun _ _ _ e => (None, e).

(** A callback that raises [x] at every call. *)
Definition raising (x : exn) : callback bench := fun _ _ _ e => (Some x, e).

(** The calls to the progress callback in a trace. *)
Fixpoint progress_calls (t : list event) : list (Z * Z * Z) :=
  match t with
  | [] => []
  | EvProgress p s n :: t' => (p, s, n) :: progress_calls t'
  | _ :: t' => progress_calls t'
  end.

End Bench.

(** ** Definitions used by the statements *)

(** [label] is the first label of [items] registered with the pair
    [(v, p)]. *)
Definition first_registered (items : list (string * (Z * Z))) (label : string) (v p : Z)
  : Prop :=
  exists before after,
    items = before ++ (label, (v, p)) :: after /\
    forall other, ~ In (other, (v, p)) before.

(** A port behind a CH340 bridge, the pair two labels share. *)
Definition shared_port : port_info :=
  {| device := "/dev/ttyUSB0"; description := "USB Serial";
     vid := Some 0x1A86; pid := Some 0x7523 |}.

(** Concrete runs on the test bench. *)
Module Scenario.
Import Bench.

(** An uploader for [port_name] after [open_connection], and the world
    it left. *)
Definition connect (e : bench) (port_name : string) : FirmwareUploader * world bench :=
  match open_connection (FirmwareUploader_init port_name 115200) (boot e) with
  | (Ret (_, self), w) => (self, w)
  | (Raise _, w) => (FirmwareUploader_init port_name 115200, w)
  end.

(** A bench with one firmware file of [size] zero bytes and a device
    that answers [OK]. *)
Definition firmware_bench (size : nat) : bench :=
  {| attached := []; files := [("firmware.bin", repeat "000"%byte size)];
     answer := fun _ => b "OK"; unplugged := [] |}.

(** The upload of that file over an open connection to COM3. *)
Definition run_upload (size : nat) (chunk_size : Z) (cb : option (callback bench))
  : res upload_result * world bench :=
  let (self, w) := connect (firmware_bench size) "COM3" in
  upload_firmware self "firmware.bin" chunk_size cb w.

(** A port whose product identifier is present and zero. *)
Definition zero_pid_port : port_info :=
  {| device := "COM7"; description := "USB Serial Device";
     vid := Some 0x04D8; pid := Some 0 |}.

Definition zero_pid_bench : bench :=
  {| attached := [zero_pid_port]; files := []; answer := fun _ => []; unplugged := [] |}.

End Scenario.

(** [needle] occurs in [hay] as a contiguous run. *)
Definition occurs (needle hay : bytes) : Prop :=
  exists before after, hay = before ++ needle ++ after.

Section Statements.

Context {E : Type} {P : Platform E}.

(** Handles are handed out in increasing order: every open handle is
    below the next one. *)
Definition fresh_handles (w : world E) : Prop :=
  Forall (fun h => (h < next_handle w)%nat) (open_handles w).

(** A computation that opens and closes no channel. *)
Definition keeps_handles {A} (m : M E A) : Prop :=
  forall w, open_handles (snd (m w)) = open_handles w /\
            next_handle (snd (m w)) = next_handle w.

(** [self.serial_conn and self.serial_conn.is_open] *)
Definition conn_is_open (self : FirmwareUploader) (w : world E) : bool :=
  match serial_conn self with
  | Some ser => is_open ser w
  | None => false
  end.

(** The exchange of the handshake protocol with the device, step by
    step on the environment: open, settle for 500 ms, discard the
    input, send the request, wait 100 ms, read up to the length of the
    expected token.  No channel is opened at a baud rate that
    [serial.Serial] refuses. *)
Inductive exchange :=
| OpenFailed
| IOFailed
| Answered (response : bytes).

Definition handshake_exchange (port_name : string) (baud_rate : Z) (e : E) : exchange :=
  if valid_baudrate baud_rate then
    match sys_open port_name baud_rate e with
    | (Some _, _) => OpenFailed
    | (None, e1) =>
        match sys_reset_input port_name (sys_sleep 500 e1) with
        | (Some _, _) => IOFailed
        | (None, e2) =>
            match sys_write port_name HANDSHAKE_COMMAND e2 with
            | (Some _, _) => IOFailed
            | (None, e3) =>
                match sys_read port_name 4 (sys_sleep 100 e3) with
                | (inl _, _) => IOFailed
                | (inr data, _) => Answered (firstn 4 data)
                end
            end
        end
    end
  else OpenFailed.

End Statements.

Module HandshakeScenario.
Import Bench.

(** One port whose device answers the handshake. *)
Definition pong_bench : bench :=
  {| attached := [shared_port]; files := [];
     answer := fun _ => b "PONG"; unplugged := [] |}.

End HandshakeScenario.

Section DetectionStatements.

Context {E : Type} {P : Platform E}.

(** The candidate of an identified port. *)
Definition candidate_of (port : port_info) (label : string) (verified : bool) : candidate :=
  {| cand_port := device port; cand_device_type := label;
     cand_description := description port;
     cand_vid := vid port; cand_pid := pid port; cand_verified := verified |}.

(** [scanned try ports w cands w']: going through [ports] in
    enumeration order from the world [w], [cands] are the candidates of
    the ports the registry identifies, each verified by the outcome of
    its handshake (or marked verified when handshakes are off), and
    [w'] is the world after the last handshake. *)
Inductive scanned (try_handshake : bool)
  : list port_info -> world E -> list candidate -> world E -> Prop :=
| scanned_nil w : scanned try_handshake [] w [] w
| scanned_skip port ports w cands w' :
    identify_by_vid_pid port = None ->
    scanned try_handshake ports w cands w' ->
    scanned try_handshake (port :: ports) w cands w'
| scanned_shake port ports label ok w w1 cands w' :
    identify_by_vid_pid port = Some label ->
    try_handshake = true ->
    verify_by_handshake (device port) 115200 w = (Ret ok, w1) ->
    scanned try_handshake ports w1 cands w' ->
    scanned try_handshake (port :: ports) w (candidate_of port label ok :: cands) w'
| scanned_trust port ports label w cands w' :
    identify_by_vid_pid port = Some label ->
    try_handshake = false ->
    scanned try_handshake ports w cands w' ->
    scanned try_handshake (port :: ports) w (candidate_of port label true :: cands) w'.

(** [all_fail ports w w']: the handshake fails on every port of
    [ports], tried in order from [w]. *)
Inductive all_fail : list port_info -> world E -> world E -> Prop :=
| all_fail_nil w : all_fail [] w w
| all_fail_cons port ports w w1 w' :
    verify_by_handshake (device port) 115200 w = (Ret false, w1) ->
    all_fail ports w1 w' ->
    all_fail (port :: ports) w w'.

(** [first_answer ports w found w']: [found] is the first port of
    [ports] on which the handshake succeeds, as the candidate labelled
    Unknown, or [None] when it fails on all of them. *)
Definition first_answer (ports : list port_info) (w : world E)
  (found : option candidate) (w' : world E) : Prop :=
  match found with
  | Some c =>
      exists before port after wm,
        ports = before ++ port :: after /\
        all_fail before w wm /\
        verify_by_handshake (device port) 115200 wm = (Ret true, w') /\
        c = unknown_candidate port /\ cand_device_type c = "Unknown"
  | None => all_fail ports w w'
  end.

End DetectionStatements.

Module DetectionScenario.
Import Bench.

(** Three ports: one without identifiers, a CH340 board that does not
    answer the handshake, and an Arduino Uno that does. *)
Definition mixed_bench : bench :=
  {| attached :=
       [ {| device := "COM1"; description := "Bluetooth link"; vid := None; pid := None |};
         {| device := "COM2"; description := "USB-SERIAL CH340";
            vid := Some 0x1A86; pid := Some 0x7523 |};
         {| device := "COM3"; description := "Arduino Uno";
            vid := Some 0x2341; pid := Some 0x0043 |} ];
     files := [];
     answer := fun port_name => if String.eqb port_name "COM3" then b "PONG" else b "boot";
     unplugged := [] |}.

End DetectionScenario.

(** The byte strings written to the serial channel in a trace, in
    order. *)
Fixpoint writes (t : list event) : list bytes :=
  match t with
  | [] => []
  | EvWrite _ data :: t' => data :: writes t'
  | _ :: t' => writes t'
  end.

(** Every chunk has [size] bytes, except the last, which has between 1
    and [size]. *)
Fixpoint chunked (size : nat) (chunks : list bytes) : Prop :=
  match chunks with
  | [] => True
  | chunk :: rest =>
      match rest with
      | [] => (0 < List.length chunk <= size)%nat
      | _ :: _ => List.length chunk = size /\ chunked size rest
      end
  end.

(** [needle] occurs in the text [hay]. *)
Fixpoint str_in (needle hay : string) : bool :=
  String.prefix needle hay ||
  match hay with
  | EmptyString => false
  | String _ hay' => str_in needle hay'
  end.

Section UploadStatements.

Context {E : Type} {P : Platform E}.

(** [turns ser C cb n rest sent w rest' sent' w']: from the loop state
    [(rest, sent)] in the world [w], some turns of the [while] loop of
    [upload_firmware], each of them completed, lead to the state
    [(rest', sent')] in the world [w']. *)
Inductive turns (ser : Serial) (chunk_size : Z) (cb : option (callback E)) (file_size : Z)
  : bytes -> Z -> world E -> bytes -> Z -> world E -> Prop :=
| turns_none rest sent w :
    turns ser chunk_size cb file_size rest sent w rest sent w
| turns_more rest sent w chunk rest1 sent1 w1 rest' sent' w' :
    file_read chunk_size rest = Ret (chunk, rest1) ->
    chunk <> [] ->
    send_chunk ser cb file_size chunk sent w = (Ret sent1, w1) ->
    turns ser chunk_size cb file_size rest1 sent1 w1 rest' sent' w' ->
    turns ser chunk_size cb file_size rest sent w rest' sent' w'.

(** The upload of the file [content] at [path], started in the world
    [w], reaches the loop state [(rest, sent)] in the world [wk]. *)
Definition upload_reaches (ser : Serial) (path : string) (chunk_size : Z)
  (cb : option (callback E)) (content : bytes) (w : world E)
  (rest : bytes) (sent : Z) (wk : world E) : Prop :=
  exists w0,
    upload_start ser (log (EvFileOpen path) w) = (Ret tt, w0) /\
    turns ser chunk_size cb (Z.of_nat (List.length content)) content 0 w0 rest sent wk.

(** In the loop state [(rest, sent)] and the world [wk] the next chunk
    is written and the callback, called for it, raises [x], leaving the
    world [wb]. *)
Definition callback_raises (ser : Serial) (chunk_size : Z) (cb : callback E)
  (file_size : Z) (rest : bytes) (sent : Z) (wk : world E) (x : exn) (wb : world E) : Prop :=
  exists chunk rest' wa,
    file_read chunk_size rest = Ret (chunk, rest') /\
    chunk <> [] /\
    write ser chunk wk = (Ret tt, wa) /\
    call_progress cb (progress_percent (sent + Z.of_nat (List.length chunk)) file_size)
      (sent + Z.of_nat (List.length chunk)) file_size wa = (Raise x, wb).

(** The message of the failure result for an exception caught by the
    second or the third [except] clause. *)
Definition failure_message (x : exn) : string :=
  if isinstance x SerialException
  then "Serial communication error: " ++ str_of x
  else "Upload failed: " ++ str_of x.

End UploadStatements.

Module CallbackScenario.
Import Bench.

(** A callback that raises [x] once more than [limit] bytes are sent. *)
Definition raising_after (limit : Z) (x : exn) : callback bench :=
  fun _ sent _ e => if limit <? sent then (Some x, e) else (None, e).

(** The callback cannot open its log file. *)
Definition log_missing : exn :=
  {| class_of := FileNotFoundError;
     str_of := "[Errno 2] No such file or directory: progress.log" |}.

(** The user interrupts the program while the callback runs. *)
Definition interrupt : exn := {| class_of := BaseException; str_of := "KeyboardInterrupt" |}.

(** The widget the callback draws on is gone. *)
Definition widget_gone : exn := {| class_of := Exception; str_of := "progress bar deleted" |}.

(** An uploader connected to COM3 on a bench with a firmware file of
    130 bytes, and the world after [open_connection]. *)
Definition uploader : FirmwareUploader := fst (Scenario.connect (Scenario.firmware_bench 130) "COM3").

Definition connected : world bench := snd (Scenario.connect (Scenario.firmware_bench 130) "COM3").

Definition channel : Serial := {| handle := 0; ser_port := "COM3" |}.

Definition firmware : bytes := repeat "000"%byte 130.

(** The world when the loop starts, after its first turn, and when the
    callback raises in the second turn. *)
Definition at_loop : world bench :=
  snd (upload_start channel (log (EvFileOpen "firmware.bin") connected)).

Definition after_turn (cb : callback bench) : world bench :=
  snd (send_chunk channel (Some cb) 130 (firstn 64 firmware) 0 at_loop).

Definition at_raise (cb : callback bench) : world bench :=
  snd (call_progress cb (progress_percent 128 130) 128 130
         (snd (write channel (firstn 64 (skipn 64 firmware)) (after_turn cb)))).

End CallbackScenario.

(** ** Definitions used by further statements *)


(** An Arduino Uno on COM3. *)
Definition uno_port : port_info :=
  {| device := "COM3"; description := "Arduino Uno";
     vid := Some 0x2341; pid := Some 0x0043 |}.
(** The candidate of the first port of [ports] that the registry
    identifies, marked verified. *)
Fixpoint first_identified (ports : list port_info) : option candidate :=
  match ports with
  | [] => None
  | port :: ports' =>
      match identify_by_vid_pid port with
      | Some label => Some (candidate_of port label true)
      | None => first_identified ports'
      end
  end.
Section FurtherUploadStatements.

Context {E : Type} {P : Platform E}.


End FurtherUploadStatements.

(** [bytes_sent] after each chunk of [chunks], starting from [sent]. *)
Fixpoint running_totals (sent : Z) (chunks : list bytes) : list Z :=
  match chunks with
  | [] => []
  | chunk :: chunks' =>
      let sent' := sent + Z.of_nat (List.length chunk) in
      sent' :: running_totals sent' chunks'
  end.
(** A call that a handshake at 115200 baud may make: the port is opened
    with the handshake's timeout and no write timeout, the only data
    written is the PING command, a read asks for four bytes; the file
    system, the output buffer, the progress callback and the
    enumeration are not touched. *)
Definition handshake_event (ev : event) : Prop :=
  match ev with
  | EvSerialOpen _ baud timeout write_timeout =>
      baud = 115200 /\ timeout = HANDSHAKE_TIMEOUT /\ write_timeout = None
  | EvWrite _ data => data = HANDSHAKE_COMMAND
  | EvRead _ size => size = 4%nat
  | EvSleep ms => ms = 500 \/ ms = 100
  | EvSerialClose _ | EvResetInput _ => True
  | EvComports | EvResetOutput _ | EvFileOpen _ | EvFileClose _ | EvProgress _ _ _ => False
  end.

(** The calls of the loop of [upload_firmware] for the chunks [chunks],
    [sent] bytes being sent already: for each chunk the write, the call
    of the callback when there is one, and the pause of 10 ms. *)
Fixpoint chunk_calls (port_name : string) (with_callback : bool) (file_size sent : Z)
  (chunks : list bytes) : list event :=
  match chunks with
  | [] => []
  | chunk :: chunks' =>
      let sent' := sent + Z.of_nat (List.length chunk) in
      EvWrite port_name chunk ::
      (if with_callback
       then [EvProgress (progress_percent sent' file_size) sent' file_size]
       else []) ++
      EvSleep 10 :: chunk_calls port_name with_callback file_size sent' chunks'
  end.

(** Is a callback given? *)
Definition given {A} (x : option A) : bool :=
  match x with
  | Some _ => true
  | None => false
  end.
(** ** A second test bench: a device that disconnects

    The driver accepts [writes_left] writes and then fails every write
    with a [SerialException]; there is one firmware file, found under
    every path; the device sends nothing back. *)
Module Flaky.

Record bench := {
  writes_left : nat;
  firmware : file_entry
}.

Definition disconnected : io_failure :=
  {| io_serial := true; io_str := "device disconnected" |}.

#[global] Instance flaky_platform : Platform bench := {
  sys_comports e := ([], e);
  sys_open _ _ e := (None, e);
  sys_close _ e := e;
  sys_reset_input _ e := (None, e);
  sys_reset_output _ e := (None, e);
  sys_write _ _ e :=
    match writes_left e with
    | O => (Some disconnected, e)
    | S k => (None, {| writes_left := k; firmware := firmware e |})
    end;
  sys_read _ _ e := (inr [], e);
  sys_file _ e := firmware e;
  sys_sleep _ e := e;
  decode_utf8_ignore := decode_ignore
}.

(** The world after [open_connection] on COM3, the uploader and its
    connection. *)
Definition connected (e : bench) : world bench :=
  snd (open_connection (FirmwareUploader_init "COM3" 115200)
         {| env := e; trace := []; next_handle := 0; open_handles := [] |}).

Definition channel : Serial := {| handle := 0; ser_port := "COM3" |}.

Definition uploader : FirmwareUploader :=
  set_serial_conn (FirmwareUploader_init "COM3" 115200) channel.

(** A file of 130 bytes and a device that takes two writes: the start
    marker and the first chunk. *)
Definition two_writes : bench :=
  {| writes_left := 2; firmware := Regular (repeat "000"%byte 130) |}.

(** A file that cannot be read. *)
Definition locked : bench :=
  {| writes_left := 2; firmware := Unreadable "[Errno 13] Permission denied" |}.

(** The world when the loop starts and after its first turn. *)
Definition at_loop : world bench :=
  snd (upload_start channel (log (EvFileOpen "firmware.bin") (connected two_writes))).

Definition after_turn : world bench :=
  snd (send_chunk channel None 130 (firstn 64 (repeat "000"%byte 130)) 0 at_loop).

End Flaky.

(** * Properties *)

(** ** Decoding *)

(** ASCII text decodes to itself. *)
Lemma utf8_ignore_ascii (data : bytes) :
  Forall (fun x => (Byte.to_N x < 128)%N) data -> utf8_ignore data = data.
Proof.
  induction 1 as [|x data Hx _ IH]; [reflexivity|].
  simpl. unfold utf8_lead_of. destruct (N.ltb_spec (Byte.to_N x) 128); [|lia].
  now rewrite IH.
Qed.

(** Of the bytes [ff 4f c3 a9 4b e2 82] the decoder keeps O, the two
    bytes of e-acute and K: it drops the byte that starts no sequence
    and the sequence that the end of the data cuts short. *)
Lemma decode_ignore_drops_ill_formed :
  decode_ignore ["255"; "O"; "195"; "169"; "K"; "226"; "130"]%byte
  = string_of_list_byte ["O"; "195"; "169"; "K"]%byte.
Proof. reflexivity. Qed.

(** ** The registry lookup *)

Lemma lookup_ids_none items v p :
  lookup_ids items v p = None <-> forall label, ~ In (label, (v, p)) items.
Proof.
  induction items as [|[name [iv ip]] items IH]; simpl.
  - split; auto.
  - destruct (Z.eqb_spec v iv) as [->|Hv]; simpl.
    + destruct (Z.eqb_spec p ip) as [->|Hp].
      * split; [discriminate|]. intros H. exfalso. apply (H name). now left.
      * rewrite IH. split; intros H label.
        -- intros [Heq|Hin]; [congruence|]. now apply (H label).
        -- intros Hin. apply (H label). now right.
    + rewrite IH. split; intros H label.
      * intros [Heq|Hin]; [congruence|]. now apply (H label).
      * intros Hin. apply (H label). now right.
Qed.

Lemma lookup_ids_some items v p label :
  lookup_ids items v p = Some label -> first_registered items label v p.
Proof.
  induction items as [|[name [iv ip]] items IH]; simpl; [discriminate|].
  destruct (Z.eqb_spec v iv) as [->|Hv]; simpl.
  - destruct (Z.eqb_spec p ip) as [->|Hp].
    + intros [= ->]. exists [], items. split; [reflexivity|]. intros other [].
    + intros H. destruct (IH H) as (before & after & -> & Hno).
      exists ((name, (iv, ip)) :: before), after. split; [reflexivity|].
      intros other [Heq|Hin]; [congruence|]. now apply (Hno other).
  - intros H. destruct (IH H) as (before & after & -> & Hno).
    exists ((name, (iv, ip)) :: before), after. split; [reflexivity|].
    intros other [Heq|Hin]; [congruence|]. now apply (Hno other).
Qed.

Lemma first_registered_In items label v p :
  first_registered items label v p -> In (label, (v, p)) items.
Proof.
  intros (before & after & -> & _). apply in_or_app. right. now left.
Qed.

(** C4: [identify_by_vid_pid] returns no match when an identifier is
    absent or the pair is not registered; for a registered pair it
    returns a label registered with exactly that pair, the first one in
    registration order, which is the label itself when no other label
    shares the pair; for the shared pair (0x1A86, 0x7523) it returns the
    first-registered label, ESP32_ALT. *)
Theorem identify_by_vid_pid_registry (port : port_info) :
  (vid port = None \/ pid port = None -> identify_by_vid_pid port = None) /\
  (forall v p, vid port = Some v -> pid port = Some p ->
     (forall label, ~ In (label, (v, p)) KNOWN_DEVICES) ->
     identify_by_vid_pid port = None) /\
  (forall v p label, vid port = Some v -> pid port = Some p ->
     In (label, (v, p)) KNOWN_DEVICES ->
     exists winner,
       identify_by_vid_pid port = Some winner /\
       first_registered KNOWN_DEVICES winner v p /\
       ((forall other, In (other, (v, p)) KNOWN_DEVICES -> other = label) ->
        winner = label)) /\
  (vid port = Some 0x1A86 -> pid port = Some 0x7523 ->
   identify_by_vid_pid port = Some "ESP32_ALT" /\
   first_registered KNOWN_DEVICES "ESP32_ALT" 0x1A86 0x7523).
Proof.
  unfold identify_by_vid_pid. split; [|split; [|split]].
  - intros [H|H]; rewrite H; [reflexivity|]. now destruct (vid port).
  - intros v p Hv Hp Hno. rewrite Hv, Hp. now apply lookup_ids_none.
  - intros v p label Hv Hp Hin. rewrite Hv, Hp.
    destruct (lookup_ids KNOWN_DEVICES v p) as [winner|] eqn:Hl.
    + exists winner. split; [reflexivity|].
      pose proof (lookup_ids_some _ _ _ _ Hl) as Hfirst.
      split; [exact Hfirst|]. intros Huniq. apply Huniq.
      now apply first_registered_In.
    + exfalso. exact (proj1 (lookup_ids_none _ _ _) Hl label Hin).
  - intros Hv Hp. rewrite Hv, Hp. split; [reflexivity|].
    now apply lookup_ids_some.
Qed.

Lemma identify_by_vid_pid_registry_witness :
  identify_by_vid_pid shared_port = Some "ESP32_ALT" /\
  first_registered KNOWN_DEVICES "ESP32_ALT" 0x1A86 0x7523.
Proof.
  apply (proj2 (proj2 (proj2 (identify_by_vid_pid_registry shared_port)))); reflexivity.
Defined.

(** ** The display view *)

(** C7: a port whose product identifier is present and equal to zero is
    listed by [get_all_devices] with the sentinel N/A for it, where
    [hex] gives 0x0: the test [if port.pid] takes a zero identifier for
    an absent one. *)
Theorem get_all_devices_zero_pid :
  pid Scenario.zero_pid_port = Some 0 /\
  hex 0 = "0x0" /\
  fst (get_all_devices (Bench.boot Scenario.zero_pid_bench)) =
    Ret [ {| entry_port := "COM7"; entry_device_type := "Unknown";
             entry_description := "USB Serial Device";
             entry_vid := "0x4d8"; entry_pid := "N/A" |} ].
Proof. repeat split. Qed.

(** For every other port the entry carries the registry label or
    Unknown, and an identifier is rendered in hexadecimal when it is
    present and not zero, as N/A when it is absent. *)
Lemma device_entry_of_spec (port : port_info) :
  entry_device_type (device_entry_of port) =
    match identify_by_vid_pid port with Some label => label | None => "Unknown" end /\
  (forall v, vid port = Some v -> v <> 0 -> entry_vid (device_entry_of port) = hex v) /\
  (forall p, pid port = Some p -> p <> 0 -> entry_pid (device_entry_of port) = hex p) /\
  (vid port = None -> entry_vid (device_entry_of port) = "N/A") /\
  (pid port = None -> entry_pid (device_entry_of port) = "N/A").
Proof.
  split; [|split; [|split; [|split]]].
  - unfold device_entry_of, identify_by_vid_pid; simpl.
    destruct (vid port) as [v|]; [|reflexivity].
    destruct (pid port) as [p|]; [|reflexivity].
    unfold KNOWN_DEVICES, lookup_ids.
    repeat match goal with
           | |- context [if ?c then _ else _] => destruct c
           end; reflexivity.
  - intros v Hv Hnz. unfold device_entry_of; simpl. rewrite Hv. simpl.
    destruct (Z.eqb_spec v 0); [contradiction|reflexivity].
  - intros p Hp Hnz. unfold device_entry_of; simpl. rewrite Hp. simpl.
    destruct (Z.eqb_spec p 0); [contradiction|reflexivity].
  - intros Hv. unfold device_entry_of; simpl. now rewrite Hv.
  - intros Hp. unfold device_entry_of; simpl. now rewrite Hp.
Qed.

(** ** The progress percentage *)

(** The percentages of a file of 130 bytes sent in chunks of 64, and two
    quotients whose product with 100 falls just below an integer. *)
Example progress_percent_samples :
  map (fun q => progress_percent (fst q) (snd q))
      [(64, 130); (128, 130); (130, 130); (29, 100); (1856, 3200)]
  = [49; 98; 100; 28; 57].
Proof. vm_compute. reflexivity. Qed.

Lemma new_location_zero n : new_location n 0 = loc_Exact.
Proof. unfold new_location. destruct (Z.even n); reflexivity. Qed.

(** When everything is sent the percentage is 100. *)
Lemma progress_percent_full n : 0 < n -> progress_percent n n = 100.
Proof.
  intros Hn. destruct n as [|m|m]; try lia.
  unfold progress_percent, Float64.truediv, Float64.of_int, SFdiv.
  unfold SFdiv_core_binary.
  replace (Zdigits2 (Z.pos m) + 0 - (Zdigits2 (Z.pos m) + 0)) with 0 by lia.
  change (Z.min (fexp Float64.prec Float64.emax 0) (0 - 0)) with (-53).
  change (0 - 0 - -53) with 53.
  cbv iota beta.
  rewrite Z.shiftl_mul_pow2 by lia.
  assert (Hq : Z.pos m * 2 ^ 53 / Z.pos m = 2 ^ 53)
    by (rewrite Z.mul_comm; apply Z.div_mul; lia).
  assert (Hr : (Z.pos m * 2 ^ 53) mod Z.pos m = 0)
    by (rewrite Z.mul_comm; apply Z.mod_mul; lia).
  unfold Z.div in Hq. unfold Z.modulo in Hr.
  destruct (Z.div_eucl (Z.pos m * 2 ^ 53) (Z.pos m)) as [q r].
  subst q r.
  rewrite new_location_zero. vm_compute. reflexivity.
Qed.

(** C2: uploading a file of 3200 bytes with the default chunk size 64,
    the 29th call of the progress callback, after 1856 bytes, reports
    57 percent, where the exact quotient 1856 * 100 / 3200 is 58; the
    last call reports 100. *)
Theorem upload_progress_rounding :
  nth_error (Bench.progress_calls (trace (snd (Scenario.run_upload 3200 64 (Some Bench.quiet))))) 28
    = Some (57, 1856, 3200) /\
  1856 * 100 / 3200 = 58 /\
  nth_error (Bench.progress_calls (trace (snd (Scenario.run_upload 3200 64 (Some Bench.quiet))))) 49
    = Some (100, 3200, 3200) /\
  List.length (Bench.progress_calls (trace (snd (Scenario.run_upload 3200 64 (Some Bench.quiet)))))
    = 50%nat.
Proof. vm_compute. repeat split. Qed.

(** ** Byte-string containment *)

Lemma starts_with_spec needle hay :
  starts_with needle hay = true <-> exists after, hay = needle ++ after.
Proof.
  revert hay. induction needle as [|x needle IH]; intros hay; simpl.
  - split; [intros _; now exists hay|reflexivity].
  - destruct hay as [|y hay].
    + split; [discriminate|]. intros [after H]. discriminate.
    + rewrite andb_true_iff, IH. split.
      * intros [Hxy [after ->]]. apply byte_dec_bl in Hxy. subst. now exists after.
      * intros [after [= -> ->]]. split; [now apply byte_dec_lb|now exists after].
Qed.

Lemma bytes_in_occurs needle hay : bytes_in needle hay = true <-> occurs needle hay.
Proof.
  unfold occurs. induction hay as [|y hay IH]; simpl.
  - rewrite orb_false_r, starts_with_spec. split.
    + intros [after H]. now exists [], after.
    + intros (before & after & H). destruct before as [|z before]; [now exists after|].
      discriminate.
  - rewrite orb_true_iff, starts_with_spec, IH. split.
    + intros [[after H]|(before & after & H)].
      * now exists [], after.
      * exists (y :: before), after. now rewrite H.
    + intros (before & after & H). destruct before as [|z before].
      * left. now exists after.
      * right. injection H as -> ->. now exists before, after.
Qed.

Section Frames.

Context {E : Type} {P : Platform E}.

(** ** Computations that open and close no channel *)

Lemma keeps_ret {A} (a : A) : keeps_handles (ret (E:=E) a).
Proof. intros w; now split. Qed.

Lemma keeps_raise {A} (e : exn) : keeps_handles (raise (E:=E) (A:=A) e).
Proof. intros w; now split. Qed.

Lemma keeps_bind {A B} (m : M E A) (k : A -> M E B) :
  keeps_handles m -> (forall a, keeps_handles (k a)) -> keeps_handles (bind m k).
Proof.
  intros Hm Hk w. unfold bind. specialize (Hm w).
  destruct (m w) as [[a|e] w1]; simpl in Hm; [|exact Hm].
  destruct (Hk a w1) as [H1 H2]. destruct Hm as [H3 H4]. split; congruence.
Qed.

Lemma keeps_try_except {A} (m : M E A) handler :
  keeps_handles m ->
  (forall e h, handler e = Some h -> keeps_handles h) ->
  keeps_handles (try_except m handler).
Proof.
  intros Hm Hh w. unfold try_except. specialize (Hm w).
  destruct (m w) as [[a|e] w1]; simpl in Hm; [exact Hm|].
  destruct (handler e) as [h|] eqn:He; [|exact Hm].
  destruct (Hh e h He w1) as [H1 H2]. destruct Hm as [H3 H4]. split; congruence.
Qed.

Lemma keeps_finally {A} (m : M E A) cleanup :
  keeps_handles m -> keeps_handles cleanup -> keeps_handles (finally m cleanup).
Proof.
  intros Hm Hc w. unfold finally. specialize (Hm w).
  destruct (m w) as [r w1]; simpl in Hm. specialize (Hc w1).
  destruct (cleanup w1) as [[u|e] w2]; simpl in *;
    destruct Hm, Hc; split; congruence.
Qed.

Lemma keeps_io_call ev (op : E -> option io_failure * E) : keeps_handles (io_call ev op).
Proof. intros w. unfold io_call. destruct (op _) as [[f|] e]; now split. Qed.

Lemma keeps_sleep ms : keeps_handles (E:=E) (sleep ms).
Proof. intros w; now split. Qed.

Lemma keeps_read ser size : keeps_handles (read ser size).
Proof. intros w. unfold read. destruct (sys_read _ _ _) as [[f|data] e]; now split. Qed.

Lemma keeps_list_all_ports : keeps_handles list_all_ports.
Proof. intros w. unfold list_all_ports. destruct (sys_comports _); now split. Qed.

Lemma keeps_call_progress (cb : callback E) p s n : keeps_handles (call_progress cb p s n).
Proof. intros w. unfold call_progress. destruct (cb _ _ _ _) as [[x|] e]; now split. Qed.

Lemma keeps_with_file {A} path (body : bytes -> M E A) :
  (forall content, keeps_handles (body content)) -> keeps_handles (with_file path body).
Proof.
  intros Hb w. unfold with_file.
  destruct (sys_file _ _) as [|why|content]; try now split.
  assert (Hf : keeps_handles
                 (finally (body content) (fun w2 => (Ret tt, log (EvFileClose path) w2)))).
  { apply keeps_finally; [apply Hb|]. intros w2; now split. }
  destruct (Hf (log (EvFileOpen path) w)) as [H1 H2]. now split.
Qed.

End Frames.

Create HintDb handles.

#[export] Hint Resolve keeps_ret keeps_raise keeps_io_call keeps_sleep keeps_read
  keeps_list_all_ports keeps_call_progress : handles.
#[export] Hint Extern 2 (keeps_handles (bind _ _)) => apply keeps_bind; [|intro] : handles.
#[export] Hint Extern 2 (keeps_handles (finally _ _)) => apply keeps_finally : handles.
#[export] Hint Extern 1 (keeps_handles (reset_input_buffer _)) => apply keeps_io_call : handles.
#[export] Hint Extern 1 (keeps_handles (reset_output_buffer _)) => apply keeps_io_call : handles.
#[export] Hint Extern 1 (keeps_handles (write _ _)) => apply keeps_io_call : handles.
#[export] Hint Extern 1 (keeps_handles (if ?c then _ else _)) => destruct c : handles.

Section Handshake.

Context {E : Type} {P : Platform E}.

(** ** The handshake *)

Lemma io_failure_caught (f : io_failure) :
  isinstance (exn_of_io f) SerialException || isinstance (exn_of_io f) OSError = true.
Proof. destruct f as [[] s]; reflexivity. Qed.

Lemma is_open_filter_out ser (hs : list nat) :
  existsb (Nat.eqb (handle ser)) (filter (fun h => negb (Nat.eqb (handle ser) h)) hs) = false.
Proof.
  induction hs as [|h hs IH]; simpl; [reflexivity|].
  destruct (Nat.eqb (handle ser) h) eqn:Hh; simpl; [exact IH|].
  now rewrite Hh.
Qed.

Lemma filter_fresh (n : nat) (hs : list nat) :
  Forall (fun h => (h < n)%nat) hs ->
  filter (fun h => negb (Nat.eqb n h)) hs = hs.
Proof.
  induction 1 as [|h hs Hh _ IH]; simpl; [reflexivity|].
  destruct (Nat.eqb_spec n h); [lia|]. simpl. now rewrite IH.
Qed.

(** A [with serial.Serial(...)] block whose body opens and closes
    nothing leaves the open handles as it found them. *)
Lemma with_serial_handles {A} port_name baud timeout (body : Serial -> M E A) w :
  fresh_handles w ->
  (forall ser, keeps_handles (body ser)) ->
  open_handles (snd (with_serial port_name baud timeout body w)) = open_handles w.
Proof.
  intros Hfresh Hbody. unfold with_serial, bind, Serial_new.
  destruct (valid_baudrate baud); [|reflexivity].
  destruct (sys_open _ _ _) as [[f|] e]; [reflexivity|].
  unfold finally.
  match goal with |- context [body ?s ?w0] =>
    destruct (Hbody s w0) as [H1 H2]; destruct (body s w0) as [r w1] end.
  simpl in H1, H2. unfold Serial_close, is_open. rewrite H1. simpl.
  rewrite Nat.eqb_refl. simpl. rewrite H1. simpl.
  rewrite Nat.eqb_refl. simpl. now apply filter_fresh.
Qed.

(** The outcome of the handshake: the [ValueError] of the constructor
    at a baud rate it refuses, a boolean otherwise. *)
Lemma verify_by_handshake_result port_name baud_rate (w : world E) :
  fst (verify_by_handshake port_name baud_rate w) =
    if valid_baudrate baud_rate then
      Ret match handshake_exchange port_name baud_rate (env w) with
          | Answered response => bytes_in HANDSHAKE_RESPONSE response
          | _ => false
          end
    else Raise (invalid_baudrate baud_rate).
Proof.
  unfold verify_by_handshake, handshake_exchange, try_except, with_serial, bind,
    Serial_new, finally, sleep, reset_input_buffer, write, read, io_call.
  simpl.
  destruct (valid_baudrate baud_rate); [|reflexivity].
  destruct (sys_open _ _ _) as [[f|] e1].
  { now destruct f as [[] ?]. }
  simpl. destruct (sys_reset_input _ _) as [[f|] e2]; simpl.
  { unfold Serial_close, is_open; simpl. rewrite Nat.eqb_refl; simpl.
    now destruct f as [[] ?]. }
  destruct (sys_write _ _ _) as [[f|] e3]; simpl.
  { unfold Serial_close, is_open; simpl. rewrite Nat.eqb_refl; simpl.
    now destruct f as [[] ?]. }
  destruct (sys_read _ _ _) as [[f|data] e4]; simpl.
  { unfold Serial_close, is_open; simpl. rewrite Nat.eqb_refl; simpl.
    now destruct f as [[] ?]. }
  unfold Serial_close, is_open.
  match goal with |- context [if ?c then ret true else ret false] => destruct c end;
    simpl; rewrite Nat.eqb_refl; reflexivity.
Qed.

(** The handshake leaves the open handles as it found them. *)
Lemma verify_by_handshake_handles port_name baud_rate (w : world E) :
  fresh_handles w ->
  open_handles (snd (verify_by_handshake port_name baud_rate w)) = open_handles w.
Proof.
  intros Hfresh. unfold verify_by_handshake, try_except.
  match goal with |- context [with_serial ?p ?bd ?t ?body w] =>
    pose proof (with_serial_handles p bd t body w Hfresh) as Hw;
    destruct (with_serial p bd t body w) as [[ok|e] w1] end.
  - apply Hw. intros ser. auto 20 with handles.
  - simpl in Hw. destruct (_ || _); simpl; apply Hw; intros ser; auto 20 with handles.
Qed.

(** At a baud rate that [serial.Serial] refuses the handshake raises
    the [ValueError] of the constructor, which is neither a
    [serial.SerialException] nor an [OSError]: the constructor call is
    the only call made, and no channel is opened. *)
Lemma verify_by_handshake_refused port_name baud_rate (w : world E) :
  valid_baudrate baud_rate = false ->
  verify_by_handshake port_name baud_rate w =
    (Raise (invalid_baudrate baud_rate),
     log (EvSerialOpen port_name baud_rate HANDSHAKE_TIMEOUT None) w).
Proof.
  intros Hbad.
  unfold verify_by_handshake, try_except, with_serial, bind, Serial_new.
  rewrite Hbad. reflexivity.
Qed.

(** C5, in its corrected form: at a baud rate that [serial.Serial]
    accepts (a non-negative one), [verify_by_handshake] does not raise:
    it returns a boolean, which is true exactly when every step of the
    exchange succeeded and PONG occurs in the bytes read after PING was
    sent (so a failure to open the channel or an I/O failure gives
    false); and it leaves no channel open: the open handles are those
    it found. *)
Theorem verify_by_handshake_spec port_name baud_rate (w : world E) :
  0 <= baud_rate ->
  exists ok w',
    verify_by_handshake port_name baud_rate w = (Ret ok, w') /\
    (ok = true <->
     exists response,
       handshake_exchange port_name baud_rate (env w) = Answered response /\
       occurs HANDSHAKE_RESPONSE response) /\
    (fresh_handles w -> open_handles w' = open_handles w).
Proof.
  intros Hbaud.
  pose proof (verify_by_handshake_result port_name baud_rate w) as Hres.
  assert (Hvalid : valid_baudrate baud_rate = true)
    by (unfold valid_baudrate; now apply Z.leb_le).
  rewrite Hvalid in Hres.
  destruct (verify_by_handshake port_name baud_rate w) as [r w'] eqn:Hrun.
  simpl in Hres. subst r. eexists; exists w'. split; [reflexivity|]. split.
  - destruct (handshake_exchange port_name baud_rate (env w)) as [| |response].
    + split; [discriminate|]. intros (r & Hr & _). discriminate.
    + split; [discriminate|]. intros (r & Hr & _). discriminate.
    + rewrite bytes_in_occurs. split.
      * intros H. now exists response.
      * intros (r & [= <-] & H). exact H.
  - intros Hfresh.
    pose proof (verify_by_handshake_handles port_name baud_rate w Hfresh) as H.
    now rewrite Hrun in H.
Qed.

End Handshake.

Lemma verify_by_handshake_spec_witness :
  exists ok w',
    verify_by_handshake "/dev/ttyUSB0" 115200 (Bench.boot HandshakeScenario.pong_bench)
      = (Ret ok, w') /\
    ok = true /\ open_handles w' = [].
Proof.
  destruct (verify_by_handshake_spec "/dev/ttyUSB0" 115200
              (Bench.boot HandshakeScenario.pong_bench) ltac:(lia))
    as (ok & w' & Hrun & Hiff & Hclosed).
  exists ok, w'. split; [exact Hrun|]. split.
  - apply Hiff. exists (b "PONG"). split; [reflexivity|].
    exists [], []. reflexivity.
  - apply Hclosed. constructor.
Defined.

(** C5, the claim as it stands does not hold: at the baud rate [-1] the
    constructor of [serial.Serial] fails to open the channel with a
    [ValueError], and [verify_by_handshake] raises it to its caller
    instead of returning false. *)
Lemma verify_by_handshake_raises :
  verify_by_handshake "/dev/ttyUSB0" (-1) (Bench.boot HandshakeScenario.pong_bench) =
    (Raise {| class_of := Exception; str_of := "Not a valid baudrate: -1" |},
     {| env := HandshakeScenario.pong_bench;
        trace := [EvSerialOpen "/dev/ttyUSB0" (-1) 2 None];
        next_handle := 0; open_handles := [] |}).
Proof. reflexivity. Qed.

Section Detection.

Context {E : Type} {P : Platform E}.

(** ** Device detection *)

Lemma verify_by_handshake_returns port_name baud_rate (w : world E) :
  valid_baudrate baud_rate = true ->
  exists ok w', verify_by_handshake port_name baud_rate w = (Ret ok, w').
Proof.
  intros Hvalid.
  pose proof (verify_by_handshake_result port_name baud_rate w) as H.
  rewrite Hvalid in H.
  destruct (verify_by_handshake port_name baud_rate w) as [r w'].
  simpl in H. subst r. eauto.
Qed.

(** Every label of the registry is a non-empty string. *)
Lemma identified_label_truthy port label :
  identify_by_vid_pid port = Some label -> truthy_str (Some label) = true.
Proof.
  unfold identify_by_vid_pid.
  destruct (vid port) as [v|]; [|discriminate].
  destruct (pid port) as [p|]; [|discriminate].
  unfold KNOWN_DEVICES, lookup_ids.
  repeat match goal with
         | |- context [if ?c then _ else _] => destruct c
         end; intros [= <-]; reflexivity.
Qed.

Lemma scan_ports_scanned try_handshake ports : forall candidates (w : world E),
  exists cands w',
    scan_ports try_handshake ports candidates w = (Ret (candidates ++ cands), w') /\
    scanned try_handshake ports w cands w'.
Proof.
  induction ports as [|port ports IH]; intros candidates w; simpl.
  - exists [], w. rewrite app_nil_r. split; [reflexivity|constructor].
  - destruct (identify_by_vid_pid port) as [label|] eqn:Hid.
    + rewrite (identified_label_truthy _ _ Hid). unfold bind.
      destruct try_handshake.
      * destruct (verify_by_handshake_returns (device port) 115200 w eq_refl)
          as (ok & w1 & Hv).
        rewrite Hv.
        destruct (IH (candidates ++ [set_verified (candidate_of port label false) ok]) w1)
          as (cands & w' & Hscan & Hsc).
        exists (candidate_of port label ok :: cands), w'. split.
        -- unfold candidate_of in Hscan. rewrite Hscan. now rewrite <- app_assoc.
        -- now apply scanned_shake with (w1 := w1).
      * unfold ret at 1.
        destruct (IH (candidates ++ [set_verified (candidate_of port label false) true]) w)
          as (cands & w' & Hscan & Hsc).
        exists (candidate_of port label true :: cands), w'. split.
        -- unfold candidate_of in Hscan. rewrite Hscan. now rewrite <- app_assoc.
        -- now apply scanned_trust.
    + destruct (IH candidates w) as (cands & w' & Hscan & Hsc).
      exists cands, w'. split; [exact Hscan|now apply scanned_skip].
Qed.

Lemma probe_ports_first_answer ports : forall w : world E,
  exists found w', probe_ports ports w = (Ret found, w') /\ first_answer ports w found w'.
Proof.
  induction ports as [|port ports IH]; intros w; simpl.
  - exists None, w. split; [reflexivity|constructor].
  - unfold bind.
    destruct (verify_by_handshake_returns (device port) 115200 w eq_refl)
          as (ok & w1 & Hv).
    rewrite Hv. destruct ok.
    + exists (Some (unknown_candidate port)), w1. split; [reflexivity|].
      exists [], port, ports, w. repeat split; [constructor|exact Hv].
    + destruct (IH w1) as (found & w' & Hp & Hfa).
      exists found, w'. split; [exact Hp|].
      destruct found as [c|]; simpl in *.
      * destruct Hfa as (before & p & after & wm & -> & Hfail & Hok & Hc).
        exists (port :: before), p, after, wm. split; [reflexivity|].
        split; [|now split]. now apply all_fail_cons with (w1 := w1).
      * now apply all_fail_cons with (w1 := w1).
Qed.

Lemma find_filter_head {A} (f : A -> bool) (l : list A) :
  find f l = hd_error (filter f l).
Proof.
  induction l as [|x l IH]; simpl; [reflexivity|].
  destruct (f x); [reflexivity|exact IH].
Qed.

(** C3: [detect_device] follows the tiered policy.  With no port it
    returns [None].  Otherwise the candidates are the ports the registry
    identifies, in enumeration order, each verified by its handshake (or
    marked verified when handshakes are off); the first verified
    candidate is returned; if none is verified, the first candidate; if
    there is no candidate and handshakes are on, the first port that
    answers the handshake, labelled Unknown, or [None] when none
    answers; if there is no candidate and handshakes are off, [None].
    So when some candidate is verified, the candidate returned is
    verified. *)
Theorem detect_device_policy (try_handshake : bool) (w w0 : world E) (ports : list port_info) :
  list_all_ports w = (Ret ports, w0) ->
  (ports = [] -> detect_device try_handshake w = (Ret None, w0)) /\
  exists cands w1,
    scanned try_handshake ports w0 cands w1 /\
    (forall c, find cand_verified cands = Some c ->
       detect_device try_handshake w = (Ret (Some c), w1)) /\
    (find cand_verified cands = None ->
     forall c rest, cands = c :: rest ->
       detect_device try_handshake w = (Ret (Some c), w1)) /\
    (cands = [] -> try_handshake = true ->
     exists found w2,
       detect_device try_handshake w = (Ret found, w2) /\
       first_answer ports w1 found w2) /\
    (cands = [] -> try_handshake = false ->
     detect_device try_handshake w = (Ret None, w1)) /\
    (forall c c' w2,
       detect_device try_handshake w = (Ret (Some c), w2) ->
       In c' cands -> cand_verified c' = true -> cand_verified c = true).
Proof.
  intros Hports. unfold detect_device, bind. rewrite Hports.
  split; [now intros ->|].
  destruct ports as [|port ports'].
  { exists [], w0. split; [constructor|].
    split; [discriminate|]. split; [discriminate|].
    split; [|split; [reflexivity|discriminate]].
    intros _ _. exists None, w0. split; [reflexivity|constructor]. }
  destruct (scan_ports_scanned try_handshake (port :: ports') [] w0)
    as (cands & w1 & Hscan & Hsc).
  change ([] ++ cands) with cands in Hscan. rewrite Hscan.
  exists cands, w1. split; [exact Hsc|].
  pose proof (find_filter_head cand_verified cands) as Hfind.
  destruct (filter cand_verified cands) as [|v0 vs] eqn:Hfilter; simpl in Hfind.
  - rewrite Hfind. split; [discriminate|].
    split; [now intros _ c rest ->|].
    split; [|split].
    + intros -> ->. apply probe_ports_first_answer.
    + now intros -> ->.
    + intros c c' w2 _ Hin Hver. exfalso.
      assert (Hin' : In c' (filter cand_verified cands)) by (apply filter_In; auto).
      now rewrite Hfilter in Hin'.
  - rewrite Hfind. split; [now intros c [= ->]|].
    split; [discriminate|].
    assert (Hv0 : In v0 (filter cand_verified cands)) by (rewrite Hfilter; now left).
    apply filter_In in Hv0. destruct Hv0 as [Hin0 Hver0].
    split; [|split].
    + intros ->. destruct Hin0.
    + intros ->. destruct Hin0.
    + intros c c' w2 [= <- _] _ _. exact Hver0.
Qed.

End Detection.

Lemma detect_device_policy_witness :
  let w := Bench.boot DetectionScenario.mixed_bench in
  let ports := Bench.attached DetectionScenario.mixed_bench in
  list_all_ports w = (Ret ports, snd (list_all_ports w)) /\
  exists cands w1,
    scanned true ports (snd (list_all_ports w)) cands w1 /\
    (forall c, find cand_verified cands = Some c ->
       detect_device true w = (Ret (Some c), w1)).
Proof.
  intros w ports.
  assert (Hports : list_all_ports w = (Ret ports, snd (list_all_ports w)))
    by reflexivity.
  split; [exact Hports|].
  destruct (detect_device_policy true w (snd (list_all_ports w)) ports Hports)
    as [_ (cands & w1 & Hsc & Hfirst & _)].
  exists cands, w1. split; assumption.
Defined.

(** On that bench the Uno, second candidate and first verified, is
    chosen. *)
Example detect_device_mixed :
  option_map cand_port
    match fst (detect_device true (Bench.boot DetectionScenario.mixed_bench)) with
    | Ret found => found
    | Raise _ => None
    end = Some "COM3".
Proof. reflexivity. Qed.

Lemma prefix_refl s : String.prefix s s = true.
Proof. induction s as [|c s IH]; simpl; [reflexivity|]. now destruct (ascii_dec c c). Qed.

Lemma str_in_refl s : str_in s s = true.
Proof.
  destruct s as [|c s]; [reflexivity|].
  change (str_in (String c s) (String c s))
    with (String.prefix (String c s) (String c s) || str_in (String c s) s).
  now rewrite prefix_refl.
Qed.

Lemma str_in_suffix s t : str_in s (t ++ s)%string = true.
Proof.
  induction t as [|c t IH]; [apply str_in_refl|].
  change (str_in s (String c t ++ s)%string)
    with (String.prefix s (String c (t ++ s)) || str_in s (t ++ s)%string).
  rewrite IH. apply orb_true_r.
Qed.

Section Connection.

Context {E : Type} {P : Platform E}.

(** ** The connection of the uploader *)

Lemma Serial_close_closed ser (w : world E) :
  is_open ser (snd (Serial_close ser w)) = false.
Proof.
  unfold Serial_close. destruct (is_open ser w) eqn:Hopen; simpl; [|exact Hopen].
  unfold is_open; simpl. apply is_open_filter_out.
Qed.

(** C9: [close_connection] never fails and is idempotent: a second
    call right after the first changes nothing, so two calls are one
    call and the channel is released at most once; after the call the
    connection is not open; on an uploader that was never opened or is
    already closed the call does nothing at all. *)
Theorem close_connection_idempotent (self : FirmwareUploader) (w : world E) :
  exists w1,
    close_connection self w = (Ret tt, w1) /\
    close_connection self w1 = (Ret tt, w1) /\
    (close_connection self ;; close_connection self) w = close_connection self w /\
    conn_is_open self w1 = false /\
    (conn_is_open self w = false -> w1 = w) /\
    trace w1 = trace w ++
      match serial_conn self with
      | Some ser => if is_open ser w then [EvSerialClose (ser_port ser)] else []
      | None => []
      end.
Proof.
  unfold close_connection, conn_is_open, bind.
  destruct (serial_conn self) as [ser|].
  - destruct (is_open ser w) eqn:Hopen.
    + pose proof (Serial_close_closed ser w) as Hclosed.
      assert (Hrun : Serial_close ser w = (Ret tt, snd (Serial_close ser w)))
        by (unfold Serial_close; now rewrite Hopen).
      exists (snd (Serial_close ser w)). rewrite Hclosed.
      split; [exact Hrun|]. split; [reflexivity|].
      split; [rewrite Hrun at 1; now rewrite Hclosed|].
      split; [reflexivity|]. split; [discriminate|].
      unfold Serial_close. now rewrite Hopen.
    + exists w. rewrite Hopen, app_nil_r. now repeat split.
  - exists w. rewrite app_nil_r. now repeat split.
Qed.

(** ** Preconditions of the upload *)

(** C6: when the connection is not open, [upload_firmware] returns
    the failure result at once and the world is unchanged: no call to
    the file system (or to anything else) is made.  When the file does
    not exist it returns (never raises) a failure result, whose message
    names the path when the connection was open. *)
Theorem upload_firmware_preconditions (self : FirmwareUploader) (firmware_path : string)
  (chunk_size : Z) (progress_callback : option (callback E)) (w : world E) :
  (conn_is_open self w = false ->
   upload_firmware self firmware_path chunk_size progress_callback w
     = (Ret (failure "Serial connection not open"), w)) /\
  (sys_file firmware_path (env w) = NoSuchFile ->
   exists r w',
     upload_firmware self firmware_path chunk_size progress_callback w = (Ret r, w') /\
     success r = false /\
     (conn_is_open self w = true ->
      message r = ("Firmware file not found: " ++ firmware_path)%string /\
      str_in firmware_path (message r) = true /\
      w' = log (EvFileOpen firmware_path) w)).
Proof.
  unfold upload_firmware, conn_is_open. split.
  - destruct (serial_conn self) as [ser|]; [|reflexivity].
    now intros ->.
  - intros Hfile. destruct (serial_conn self) as [ser|].
    + destruct (is_open ser w) eqn:Hopen; simpl.
      * unfold try_except, upload_body, with_file. simpl. rewrite Hfile. simpl.
        eexists; eexists. split; [reflexivity|]. split; [reflexivity|].
        intros _. split; [reflexivity|]. split; [|reflexivity].
        exact (str_in_suffix firmware_path "Firmware file not found: ").
      * eexists; eexists. split; [reflexivity|]. split; [reflexivity|]. discriminate.
    + eexists; eexists. split; [reflexivity|]. split; [reflexivity|]. discriminate.
Qed.

End Connection.

Lemma close_connection_idempotent_witness :
  exists w1,
    close_connection (FirmwareUploader_init "COM3" 115200)
      (Bench.boot (Scenario.firmware_bench 0)) = (Ret tt, w1) /\
    w1 = Bench.boot (Scenario.firmware_bench 0).
Proof.
  destruct (close_connection_idempotent (FirmwareUploader_init "COM3" 115200)
              (Bench.boot (Scenario.firmware_bench 0)))
    as (w1 & Hrun & _ & _ & _ & Hsame & _).
  exists w1. split; [exact Hrun|]. apply Hsame. reflexivity.
Defined.

Lemma upload_firmware_preconditions_witness :
  upload_firmware (FirmwareUploader_init "COM3" 115200) "firmware.bin" 64 None
    (Bench.boot (Scenario.firmware_bench 130))
    = (Ret (failure "Serial connection not open"), Bench.boot (Scenario.firmware_bench 130)) /\
  exists r w',
    upload_firmware (fst (Scenario.connect (Scenario.firmware_bench 130) "COM3"))
      "missing.hex" 64 None (snd (Scenario.connect (Scenario.firmware_bench 130) "COM3"))
      = (Ret r, w') /\
    message r = "Firmware file not found: missing.hex".
Proof.
  split.
  - apply (proj1 (upload_firmware_preconditions (FirmwareUploader_init "COM3" 115200)
                    "firmware.bin" 64 None (Bench.boot (Scenario.firmware_bench 130)))).
    reflexivity.
  - assert (Hfile : sys_file "missing.hex"
                      (env (snd (Scenario.connect (Scenario.firmware_bench 130) "COM3")))
                    = NoSuchFile) by reflexivity.
    destruct (proj2 (upload_firmware_preconditions
                       (fst (Scenario.connect (Scenario.firmware_bench 130) "COM3"))
                       "missing.hex" 64 None
                       (snd (Scenario.connect (Scenario.firmware_bench 130) "COM3")))
                    Hfile)
      as (r & w' & Hrun & _ & Hmsg).
    exists r, w'. split; [exact Hrun|]. apply Hmsg. reflexivity.
Defined.

Section Release.

Context {E : Type} {P : Platform E}.

(** ** Who releases the channel *)

Lemma keeps_send_chunk ser (cb : option (callback E)) n chunk sent :
  keeps_handles (send_chunk ser cb n chunk sent).
Proof. unfold send_chunk. destruct cb; auto 20 with handles. Qed.

Lemma keeps_upload_loop ser chunk_size (cb : option (callback E)) n fuel :
  forall rest sent, keeps_handles (upload_loop fuel ser chunk_size cb n rest sent).
Proof.
  induction fuel as [|fuel IH]; intros rest sent; simpl;
    destruct (file_read chunk_size rest) as [[[|x chunk] rest']|e]; auto with handles.
  apply keeps_bind; [apply keeps_send_chunk|]. intros sent'. apply IH.
Qed.

Lemma keeps_upload_start ser : keeps_handles (upload_start (E:=E) ser).
Proof. unfold upload_start. auto 20 with handles. Qed.

Lemma keeps_upload_body ser path chunk_size (cb : option (callback E)) :
  keeps_handles (upload_body ser path chunk_size cb).
Proof.
  unfold upload_body. apply keeps_with_file. intros content.
  apply keeps_bind; [apply keeps_upload_start|]. intros _.
  apply keeps_bind; [apply keeps_upload_loop|]. intros sent.
  auto 20 with handles.
Qed.

Lemma keeps_upload_firmware self path chunk_size (cb : option (callback E)) :
  keeps_handles (upload_firmware self path chunk_size cb).
Proof.
  intros w. unfold upload_firmware.
  destruct (serial_conn self) as [ser|]; [|now split].
  destruct (negb (is_open ser w)); [now split|].
  apply keeps_try_except; [apply keeps_upload_body|].
  intros e h. unfold upload_handler.
  repeat match goal with
         | |- context [if ?c then _ else _] => destruct c
         end; intros [= <-]; auto with handles.
Qed.

(** C8, as the code has it: the handshake releases the channel it
    opened before it returns, on every path; [upload_firmware] opens and
    closes nothing: on every path, failures included, the open handles
    are those it found, and the connection of the uploader is open after
    the call exactly when it was open before.  Releasing it is the
    caller's move, with [close_connection]. *)
Theorem channel_release (self : FirmwareUploader) (firmware_path : string)
  (chunk_size : Z) (progress_callback : option (callback E))
  (port_name : string) (baud_rate : Z) (w : world E) :
  (fresh_handles w ->
   open_handles (snd (verify_by_handshake port_name baud_rate w)) = open_handles w) /\
  open_handles (snd (upload_firmware self firmware_path chunk_size progress_callback w))
    = open_handles w /\
  conn_is_open self (snd (upload_firmware self firmware_path chunk_size progress_callback w))
    = conn_is_open self w.
Proof.
  split; [|split].
  - apply verify_by_handshake_handles.
  - apply keeps_upload_firmware.
  - unfold conn_is_open, is_open.
    now rewrite (proj1 (keeps_upload_firmware self firmware_path chunk_size
                          progress_callback w)).
Qed.

End Release.

(** An upload, successful or not, returns with the connection still
    open. *)
Lemma upload_firmware_keeps_channel_open :
  (fst (upload_firmware (fst (Scenario.connect (Scenario.firmware_bench 130) "COM3"))
          "firmware.bin" 64 None
          (snd (Scenario.connect (Scenario.firmware_bench 130) "COM3")))
   = Ret {| success := true; message := "Successfully uploaded 130 bytes";
            bytes_sent := Some 130; response := Some "OK" |} /\
   conn_is_open (fst (Scenario.connect (Scenario.firmware_bench 130) "COM3"))
     (snd (upload_firmware (fst (Scenario.connect (Scenario.firmware_bench 130) "COM3"))
             "firmware.bin" 64 None
             (snd (Scenario.connect (Scenario.firmware_bench 130) "COM3")))) = true) /\
  (fst (upload_firmware (fst (Scenario.connect (Scenario.firmware_bench 130) "COM3"))
          "missing.hex" 64 None
          (snd (Scenario.connect (Scenario.firmware_bench 130) "COM3")))
   = Ret (failure "Firmware file not found: missing.hex") /\
   conn_is_open (fst (Scenario.connect (Scenario.firmware_bench 130) "COM3"))
     (snd (upload_firmware (fst (Scenario.connect (Scenario.firmware_bench 130) "COM3"))
             "missing.hex" 64 None
             (snd (Scenario.connect (Scenario.firmware_bench 130) "COM3")))) = true).
Proof. vm_compute. repeat split. Qed.

Lemma channel_release_witness :
  open_handles (snd (verify_by_handshake "/dev/ttyUSB0" 115200
                       (Bench.boot HandshakeScenario.pong_bench))) = [].
Proof.
  apply (proj1 (channel_release (FirmwareUploader_init "COM3" 115200) "firmware.bin" 64 None
                  "/dev/ttyUSB0" 115200 (Bench.boot HandshakeScenario.pong_bench))).
  constructor.
Defined.

(** ** Chunks *)

Lemma writes_app t1 t2 : writes (t1 ++ t2) = writes t1 ++ writes t2.
Proof.
  induction t1 as [|ev t1 IH]; simpl; [reflexivity|].
  destruct ev; simpl; now rewrite ?IH.
Qed.

(** A non-empty read takes a prefix of the rest of the file and leaves
    less to read. *)
Lemma file_read_split size rest chunk rest' :
  file_read size rest = Ret (chunk, rest') ->
  rest = chunk ++ rest' /\
  (chunk <> [] -> (List.length rest' < List.length rest)%nat).
Proof.
  unfold file_read. destruct (size <? -1); [discriminate|]. destruct (size <? 0).
  - intros [= <- <-]. rewrite app_nil_r. split; [reflexivity|].
    destruct rest; [congruence|simpl; lia].
  - intros [= <- <-]. rewrite firstn_skipn. split; [reflexivity|].
    intros Hne. rewrite length_skipn.
    destruct (Z.to_nat size); [now destruct rest|].
    destruct rest; [now destruct Hne|simpl; lia].
Qed.

(** A read fails for a size below [-1] and for no other. *)
Lemma file_read_raises size rest e :
  file_read size rest = Raise e <-> size < -1 /\ e = invalid_read_length.
Proof.
  unfold file_read. destruct (Z.ltb_spec size (-1)).
  - split; [now intros [= <-]|now intros [_ ->]].
  - split; [destruct (size <? 0); discriminate|lia].
Qed.

Lemma file_read_size size rest chunk rest' :
  0 < size -> file_read size rest = Ret (chunk, rest') ->
  (chunk = [] -> rest = []) /\
  (rest' <> [] -> List.length chunk = Z.to_nat size) /\
  (List.length chunk <= Z.to_nat size)%nat.
Proof.
  intros Hsize. unfold file_read.
  destruct (Z.ltb_spec size (-1)); [lia|]. destruct (Z.ltb_spec size 0); [lia|].
  intros [= <- <-]. split; [|split].
  - destruct (Z.to_nat size) eqn:Hn; [lia|]. now destruct rest.
  - intros Hne. rewrite length_firstn.
    assert (List.length (skipn (Z.to_nat size) rest) <> 0%nat)
      by (now destruct (skipn (Z.to_nat size) rest)).
    rewrite length_skipn in *. lia.
  - rewrite length_firstn. lia.
Qed.

Lemma chunked_cons size chunk chunks :
  (0 < List.length chunk <= size)%nat ->
  (chunks <> [] -> List.length chunk = size) ->
  chunked size chunks ->
  chunked size (chunk :: chunks).
Proof.
  intros Hlen Hfull Hrest. simpl. destruct chunks as [|c cs]; [exact Hlen|].
  split; [now apply Hfull|exact Hrest].
Qed.

(** The arithmetic of chunking: [chunks] cut a file of [n > 0] bytes in
    pieces of [size] bytes. *)
Lemma chunked_count size chunks :
  (0 < size)%nat -> chunked size chunks ->
  let n := Z.of_nat (List.length (List.concat chunks)) in
  let c := Z.of_nat size in
  Z.of_nat (List.length chunks) = (n + c - 1) / c /\
  Forall (fun chunk => Z.of_nat (List.length chunk) = c) (removelast chunks) /\
  (chunks <> [] ->
   Z.of_nat (List.length (last chunks [])) = if n mod c =? 0 then c else n mod c).
Proof.
  intros Hsize. induction chunks as [|chunk chunks IH]; intros Hch n c.
  - subst n c. simpl. split; [|split; [constructor|congruence]].
    symmetry. apply Z.div_small. lia.
  - destruct chunks as [|chunk' chunks].
    + clear IH. simpl in Hch. subst n c. simpl. rewrite app_nil_r.
      split; [|split; [constructor|intros _]].
      * apply Z.div_unique with (r := Z.of_nat (List.length chunk) - 1); lia.
      * destruct (Nat.eq_dec (List.length chunk) size) as [->|Hne].
        -- rewrite Z.mod_same by lia. reflexivity.
        -- rewrite Z.mod_small by lia.
           destruct (Z.eqb_spec (Z.of_nat (List.length chunk)) 0); lia.
    + destruct Hch as [Hlen Hch]. specialize (IH Hch). cbv zeta in IH.
      destruct IH as (IHn & IHall & IHlast).
      set (rest := chunk' :: chunks) in *.
      assert (Hn : n = Z.of_nat (List.length (List.concat rest)) + 1 * Z.of_nat size).
      { subst n. change (List.concat (chunk :: rest)) with (chunk ++ List.concat rest).
        rewrite length_app. lia. }
      subst c. rewrite Hn. clear Hn n.
      assert (Hc : Z.of_nat size <> 0) by lia.
      split; [|split].
      * change (List.length (chunk :: rest)) with (S (List.length rest)).
        rewrite Nat2Z.inj_succ, IHn.
        replace (Z.of_nat (List.length (List.concat rest)) + 1 * Z.of_nat size
                 + Z.of_nat size - 1)
          with (Z.of_nat (List.length (List.concat rest)) + Z.of_nat size - 1
                + 1 * Z.of_nat size) by lia.
        rewrite Z.div_add by exact Hc. lia.
      * change (removelast (chunk :: rest)) with (chunk :: removelast rest).
        constructor; [lia|exact IHall].
      * intros _. change (last (chunk :: rest) []) with (last rest []).
        rewrite IHlast by (subst rest; discriminate).
        rewrite Z.mod_add by exact Hc. reflexivity.
Qed.

Lemma chunked_concat_nil size chunks :
  (0 < size)%nat -> chunked size chunks -> List.concat chunks = [] -> chunks = [].
Proof.
  destruct chunks as [|c cs]; [reflexivity|]. simpl. intros Hs H Hc.
  apply app_eq_nil in Hc as [-> _]. destruct cs; simpl in H; lia.
Qed.

Section Upload.

Context {E : Type} {P : Platform E}.

(** ** The upload *)

(** A completed turn of the loop writes its chunk, once, and adds its
    length to [bytes_sent]. *)
Lemma send_chunk_ret ser (cb : option (callback E)) n chunk sent (w : world E) sent1 w1 :
  send_chunk ser cb n chunk sent w = (Ret sent1, w1) ->
  sent1 = sent + Z.of_nat (List.length chunk) /\
  exists evs, trace w1 = trace w ++ evs /\ writes evs = [chunk].
Proof.
  unfold send_chunk, bind, write, io_call, sleep, ret.
  destruct (sys_write _ _ _) as [[f|] e]; [discriminate|].
  destruct cb as [cb|].
  - unfold call_progress.
    destruct (cb _ _ _ _) as [[x|] e']; [discriminate|].
    intros [= <- <-]. split; [reflexivity|]. simpl.
    eexists. rewrite <- !app_assoc. split; reflexivity.
  - intros [= <- <-]. split; [reflexivity|]. simpl.
    eexists. rewrite <- !app_assoc. split; reflexivity.
Qed.

(** The statements before the loop write the start marker and nothing
    else. *)
Lemma upload_start_ret ser (w w0 : world E) :
  upload_start ser w = (Ret tt, w0) ->
  exists evs, trace w0 = trace w ++ evs /\ writes evs = [b ("UPLOAD_START" ++ LF)].
Proof.
  unfold upload_start, bind, reset_input_buffer, reset_output_buffer, write, io_call, sleep.
  destruct (sys_reset_input _ _) as [[f|] e1]; [discriminate|].
  destruct (sys_reset_output _ _) as [[f|] e2]; [discriminate|].
  destruct (sys_write _ _ _) as [[f|] e3]; [discriminate|].
  intros [= <-]. simpl. eexists. rewrite <- !app_assoc. split; reflexivity.
Qed.

(** A loop that runs to the end has sent the whole rest of the file, in
    chunks of [chunk_size] bytes. *)
Lemma upload_loop_ret ser chunk_size (cb : option (callback E)) n :
  0 < chunk_size ->
  forall fuel rest sent (w : world E) sent' w',
    (List.length rest <= fuel)%nat ->
    upload_loop fuel ser chunk_size cb n rest sent w = (Ret sent', w') ->
    sent' = sent + Z.of_nat (List.length rest) /\
    exists evs chunks,
      trace w' = trace w ++ evs /\ writes evs = chunks /\
      List.concat chunks = rest /\ chunked (Z.to_nat chunk_size) chunks.
Proof.
  intros Hsize. induction fuel as [|fuel IH]; intros rest sent w sent' w' Hfuel; simpl.
  - destruct rest; [|simpl in Hfuel; lia].
    destruct (file_read chunk_size []) as [[[|x chunk] rest']|e] eqn:Hread;
      [| |unfold raise; discriminate].
    + intros [= <- <-]. split; [simpl; lia|].
      exists [], []. rewrite app_nil_r. now repeat split.
    + apply file_read_split in Hread as [Hsplit _]. discriminate Hsplit.
  - destruct (file_read chunk_size rest) as [[[|x chunk] rest']|e] eqn:Hread;
      [| |unfold raise; discriminate].
    + intros [= <- <-].
      destruct (file_read_size _ _ _ _ Hsize Hread) as [Hnil _].
      rewrite (Hnil eq_refl). split; [simpl; lia|].
      exists [], []. rewrite app_nil_r. now repeat split.
    + unfold bind.
      destruct (send_chunk ser cb n (x :: chunk) sent w) as [[sent1|e] w1] eqn:Hsend;
        [|discriminate].
      intros Hloop.
      destruct (send_chunk_ret _ _ _ _ _ _ _ _ Hsend) as (-> & evs1 & Htr1 & Hw1).
      destruct (file_read_split _ _ _ _ Hread) as [Hsplit Hless].
      destruct (file_read_size _ _ _ _ Hsize Hread) as (_ & Hfull & Hmax).
      assert (Hlen : (List.length rest' <= fuel)%nat)
        by (specialize (Hless ltac:(discriminate)); lia).
      destruct (IH _ _ _ _ _ Hlen Hloop) as (-> & evs & chunks & Htr & Hw & Hcat & Hch).
      split.
      * rewrite Hsplit, length_app. lia.
      * exists (evs1 ++ evs), ((x :: chunk) :: chunks).
        rewrite Htr, Htr1, app_assoc, writes_app, Hw1, Hw.
        split; [reflexivity|]. split; [reflexivity|].
        split; [simpl; now rewrite Hcat|].
        apply chunked_cons; [simpl in *; lia| |exact Hch].
        intros Hne. apply Hfull. intros ->. apply Hne.
        apply (chunked_concat_nil (Z.to_nat chunk_size)); [lia|exact Hch|exact Hcat].
Qed.

(** A successful run of the body: what it returns and what it
    writes. *)
Lemma upload_body_ret ser path chunk_size (cb : option (callback E)) content
  (w w' : world E) r :
  0 < chunk_size ->
  sys_file path (env w) = Regular content ->
  upload_body ser path chunk_size cb w = (Ret r, w') ->
  success r = true /\
  bytes_sent r = Some (Z.of_nat (List.length content)) /\
  exists evs chunks,
    trace w' = trace w ++ evs /\
    writes evs = b ("UPLOAD_START" ++ LF) :: chunks ++ [b (LF ++ "UPLOAD_COMPLETE" ++ LF)] /\
    List.concat chunks = content /\ chunked (Z.to_nat chunk_size) chunks.
Proof.
  intros Hsize Hfile. unfold upload_body, with_file.
  change (env (log (EvFileOpen path) w)) with (env w). rewrite Hfile.
  unfold finally, bind at 1.
  destruct (upload_start ser (log (EvFileOpen path) w)) as [[[]|e] w0] eqn:Hstart;
    [|discriminate].
  unfold bind at 1.
  destruct (upload_loop _ ser chunk_size cb _ content 0 w0) as [[sent|e] wl] eqn:Hloop;
    [|discriminate].
  unfold bind, write, io_call, sleep, read, ret.
  destruct (sys_write _ _ _) as [[f|] e1]; [discriminate|].
  destruct (sys_read _ _ _) as [[f|data] e2]; [discriminate|].
  intros [= <- <-].
  destruct (upload_start_ret _ _ _ Hstart) as (evs0 & Htr0 & Hw0).
  destruct (upload_loop_ret _ _ _ _ Hsize _ _ _ _ _ _ (Nat.le_refl _) Hloop)
    as (-> & evs & chunks & Htr & Hw & Hcat & Hch).
  split; [reflexivity|]. split; [reflexivity|].
  eexists; exists chunks. simpl. rewrite Htr, Htr0. simpl.
  rewrite <- !app_assoc. split; [reflexivity|].
  split; [|now split].
  simpl. rewrite !writes_app, Hw0, Hw. reflexivity.
Qed.

(** C1: for a firmware file of [n > 0] bytes and a chunk size
    [chunk_size > 0], a successful [upload_firmware] returns a result
    with [bytes_sent = n], and what it writes to the channel is the
    start marker, then the file cut in exactly [ceil(n / chunk_size)]
    chunks, each of [chunk_size] bytes except that the last has
    [n mod chunk_size] bytes when that is not zero, then the completion
    marker. *)
Theorem upload_firmware_byte_exact (self : FirmwareUploader) (firmware_path : string)
  (chunk_size : Z) (progress_callback : option (callback E))
  (content : bytes) (w w' : world E) (r : upload_result) :
  sys_file firmware_path (env w) = Regular content ->
  0 < Z.of_nat (List.length content) ->
  0 < chunk_size ->
  upload_firmware self firmware_path chunk_size progress_callback w = (Ret r, w') ->
  success r = true ->
  let n := Z.of_nat (List.length content) in
  bytes_sent r = Some n /\
  exists evs chunks,
    trace w' = trace w ++ evs /\
    writes evs = b ("UPLOAD_START" ++ LF) :: chunks ++ [b (LF ++ "UPLOAD_COMPLETE" ++ LF)] /\
    List.concat chunks = content /\
    Z.of_nat (List.length chunks) = (n + chunk_size - 1) / chunk_size /\
    Forall (fun chunk => Z.of_nat (List.length chunk) = chunk_size) (removelast chunks) /\
    Z.of_nat (List.length (last chunks [])) =
      (if n mod chunk_size =? 0 then chunk_size else n mod chunk_size).
Proof.
  intros Hfile Hn Hsize Hrun Hok n.
  assert (Hbody : exists ser, upload_body ser firmware_path chunk_size progress_callback w
                              = (Ret r, w')).
  { unfold upload_firmware in Hrun.
    destruct (serial_conn self) as [ser|];
      [|injection Hrun as <- <-; discriminate Hok].
    destruct (negb (is_open ser w));
      [injection Hrun as <- <-; discriminate Hok|].
    exists ser. unfold try_except in Hrun.
    destruct (upload_body ser firmware_path chunk_size progress_callback w)
      as [[r0|e] w1]; [exact Hrun|].
    unfold upload_handler in Hrun.
    repeat match type of Hrun with
           | context [if ?c then _ else _] => destruct c
           end;
      try (injection Hrun as <- <-; discriminate Hok); discriminate Hrun. }
  destruct Hbody as [ser Hbody].
  destruct (upload_body_ret _ _ _ _ _ _ _ _ Hsize Hfile Hbody)
    as (_ & Hsent & evs & chunks & Htr & Hw & Hcat & Hch).
  split; [exact Hsent|].
  exists evs, chunks. split; [exact Htr|]. split; [exact Hw|]. split; [exact Hcat|].
  assert (Hpos : (0 < Z.to_nat chunk_size)%nat) by lia.
  pose proof (chunked_count _ _ Hpos Hch) as Hcount. cbv zeta in Hcount.
  rewrite Hcat, Z2Nat.id in Hcount by lia.
  destruct Hcount as (Hlen & Hall & Hlast).
  split; [exact Hlen|]. split; [exact Hall|].
  apply Hlast. intros ->. simpl in Hcat. subst content. simpl in Hn. lia.
Qed.

End Upload.

Lemma upload_firmware_byte_exact_witness :
  exists r w',
    upload_firmware (fst (Scenario.connect (Scenario.firmware_bench 130) "COM3"))
      "firmware.bin" 64 (Some Bench.quiet)
      (snd (Scenario.connect (Scenario.firmware_bench 130) "COM3")) = (Ret r, w') /\
    bytes_sent r = Some 130 /\
    exists evs chunks,
      trace w' = trace (snd (Scenario.connect (Scenario.firmware_bench 130) "COM3")) ++ evs /\
      writes evs = b ("UPLOAD_START" ++ LF) :: chunks ++ [b (LF ++ "UPLOAD_COMPLETE" ++ LF)] /\
      Z.of_nat (List.length chunks) = 3 /\
      Z.of_nat (List.length (last chunks [])) = 2.
Proof.
  destruct (upload_firmware (fst (Scenario.connect (Scenario.firmware_bench 130) "COM3"))
      "firmware.bin" 64 (Some Bench.quiet)
      (snd (Scenario.connect (Scenario.firmware_bench 130) "COM3"))) as [[r|e] w'] eqn:Hrun.
  2: { vm_compute in Hrun; discriminate Hrun. }
  assert (Hok : success r = true)
    by (vm_compute in Hrun; injection Hrun as <- _; reflexivity).
  assert (Hfile : sys_file "firmware.bin"
                    (env (snd (Scenario.connect (Scenario.firmware_bench 130) "COM3")))
                  = Regular (repeat "000"%byte 130)) by reflexivity.
  assert (Hn : 0 < Z.of_nat (List.length (repeat "000"%byte 130))) by (simpl; lia).
  assert (Hsize : 0 < 64) by lia.
  pose proof (upload_firmware_byte_exact
              (fst (Scenario.connect (Scenario.firmware_bench 130) "COM3"))
              "firmware.bin" 64 (Some Bench.quiet) (repeat "000"%byte 130)
              (snd (Scenario.connect (Scenario.firmware_bench 130) "COM3")) w' r
              Hfile Hn Hsize Hrun Hok) as H.
  cbv zeta in H.
  destruct H as (Hsent & evs & chunks & Htr & Hw & _ & Hlen & _ & Hlast).
  exists r, w'. split; [reflexivity|].
  split; [exact Hsent|]. exists evs, chunks.
  split; [exact Htr|]. split; [exact Hw|]. split; [exact Hlen|exact Hlast].
Defined.

Section Callback.

Context {E : Type} {P : Platform E}.

(** ** Exceptions raised by the progress callback *)

(** The loop never runs out of fuel: any two amounts of fuel that
    cover the rest of the file give the same run. *)
Lemma upload_loop_fuel ser chunk_size (cb : option (callback E)) n :
  forall fuel1 fuel2 rest sent (w : world E),
    (List.length rest <= fuel1)%nat -> (List.length rest <= fuel2)%nat ->
    upload_loop fuel1 ser chunk_size cb n rest sent w
    = upload_loop fuel2 ser chunk_size cb n rest sent w.
Proof.
  induction fuel1 as [|fuel1 IH]; intros fuel2 rest sent w H1 H2.
  - destruct rest; [|simpl in H1; lia].
    destruct fuel2; simpl;
      destruct (file_read chunk_size []) as [[[|x chunk] rest']|e] eqn:Hread;
      try reflexivity;
      apply file_read_split in Hread as [Hsplit _]; discriminate Hsplit.
  - destruct fuel2 as [|fuel2].
    + destruct rest; [|simpl in H2; lia]. simpl.
      destruct (file_read chunk_size []) as [[[|x chunk] rest']|e] eqn:Hread;
        try reflexivity.
      apply file_read_split in Hread as [Hsplit _]; discriminate Hsplit.
    + simpl. destruct (file_read chunk_size rest) as [[[|x chunk] rest']|e] eqn:Hread;
        [reflexivity| |reflexivity].
      destruct (file_read_split _ _ _ _ Hread) as [_ Hless].
      specialize (Hless ltac:(discriminate)).
      unfold bind. destruct (send_chunk _ _ _ _ _ _) as [[sent1|e] w1]; [|reflexivity].
      apply IH; lia.
Qed.

Lemma turns_loop ser chunk_size (cb : option (callback E)) n rest0 sent0 w0 rest sent wk :
  turns ser chunk_size cb n rest0 sent0 w0 rest sent wk ->
  forall fuel, (List.length rest0 <= fuel)%nat ->
    upload_loop fuel ser chunk_size cb n rest0 sent0 w0
    = upload_loop (List.length rest) ser chunk_size cb n rest sent wk.
Proof.
  induction 1 as [rest sent w|rest sent w chunk rest1 sent1 w1 rest' sent' w'
                   Hread Hne Hsend _ IH]; intros fuel Hfuel.
  - now apply upload_loop_fuel.
  - destruct (file_read_split _ _ _ _ Hread) as [_ Hless]. specialize (Hless Hne).
    destruct fuel as [|fuel]; [lia|]. simpl. rewrite Hread.
    destruct chunk as [|x chunk]; [congruence|].
    unfold bind. rewrite Hsend. apply IH. lia.
Qed.

Lemma turns_trace ser chunk_size (cb : option (callback E)) n rest0 sent0 w0 rest sent wk :
  turns ser chunk_size cb n rest0 sent0 w0 rest sent wk ->
  open_handles wk = open_handles w0 /\
  exists evs chunks,
    trace wk = trace w0 ++ evs /\ writes evs = chunks /\
    rest0 = List.concat chunks ++ rest.
Proof.
  induction 1 as [rest sent w|rest sent w chunk rest1 sent1 w1 rest' sent' w'
                   Hread Hne Hsend _ IH].
  - split; [reflexivity|]. exists [], []. rewrite app_nil_r. now repeat split.
  - destruct IH as (Hh & evs & chunks & Htr & Hw & Hcat).
    destruct (send_chunk_ret _ _ _ _ _ _ _ _ Hsend) as (_ & evs1 & Htr1 & Hw1).
    destruct (file_read_split _ _ _ _ Hread) as [Hsplit _].
    pose proof (keeps_send_chunk ser cb n chunk sent w) as [Hk _].
    rewrite Hsend in Hk. simpl in Hk.
    split; [congruence|].
    exists (evs1 ++ evs), (chunk :: chunks).
    rewrite Htr, Htr1, app_assoc, writes_app, Hw1, Hw.
    split; [reflexivity|]. split; [reflexivity|].
    simpl. rewrite <- app_assoc. congruence.
Qed.

(** C10, as the code has it: when, at some turn of the chunk loop,
    the chunk is written and the progress callback then raises an
    exception that is an [Exception] and not a [FileNotFoundError],
    [upload_firmware] does not raise: it returns a failure result whose
    message carries the description of the exception ([str(e)] after
    Serial communication error: for a [SerialException], after Upload
    failed: otherwise); the connection is still open; and what was
    written stays written: the start marker and the chunks up to this
    one, a prefix of the file, with no completion marker. *)
Theorem upload_firmware_callback_raises (self : FirmwareUploader) (ser : Serial)
  (firmware_path : string) (chunk_size : Z) (cb : callback E) (content : bytes)
  (w wk wb : world E) (rest : bytes) (sent : Z) (x : exn) :
  serial_conn self = Some ser ->
  is_open ser w = true ->
  sys_file firmware_path (env w) = Regular content ->
  upload_reaches ser firmware_path chunk_size (Some cb) content w rest sent wk ->
  callback_raises ser chunk_size cb (Z.of_nat (List.length content)) rest sent wk x wb ->
  isinstance x Exception = true ->
  isinstance x FileNotFoundError = false ->
  exists w',
    upload_firmware self firmware_path chunk_size (Some cb) w
      = (Ret (failure (failure_message x)), w') /\
    str_in (str_of x) (failure_message x) = true /\
    is_open ser w' = true /\
    exists evs chunks rest',
      trace w' = trace w ++ evs /\
      writes evs = b ("UPLOAD_START" ++ LF) :: chunks /\
      content = List.concat chunks ++ rest'.
Proof.
  intros Hconn Hopen Hfile (w0 & Hstart & Hturns)
    (chunk & rest' & wa & Hread & Hne & Hwrite & Hcall) Hexc Hnotfound.
  exists (log (EvFileClose firmware_path) wb).
  destruct (upload_start_ret _ _ _ Hstart) as (evs0 & Htr0 & Hw0).
  destruct (turns_trace _ _ _ _ _ _ _ _ _ _ Hturns) as (Hh & evs & chunks & Htr & Hw & Hcat).
  destruct (file_read_split _ _ _ _ Hread) as [Hsplit Hless]. specialize (Hless Hne).
  assert (Hloop : upload_loop (List.length content) ser chunk_size (Some cb)
                    (Z.of_nat (List.length content)) content 0 w0 = (Raise x, wb)).
  { rewrite (turns_loop _ _ _ _ _ _ _ _ _ _ Hturns) by lia.
    destruct (List.length rest) as [|fuel] eqn:Hlen; [lia|]. simpl. rewrite Hread.
    destruct chunk as [|c chunk]; [congruence|].
    unfold bind, send_chunk, bind. rewrite Hwrite, Hcall. reflexivity. }
  assert (Hwa : trace wa = trace wk ++ [EvWrite (ser_port ser) chunk]
                /\ open_handles wa = open_handles wk).
  { unfold write, io_call in Hwrite.
    destruct (sys_write _ _ _) as [[f|] e]; [discriminate|].
    injection Hwrite as <-. now split. }
  assert (Hwb : exists ev, trace wb = trace wa ++ [ev] /\ writes [ev] = []
                           /\ open_handles wb = open_handles wa).
  { unfold call_progress in Hcall.
    destruct (cb _ _ _ _) as [[x0|] e]; [|discriminate].
    injection Hcall as _ <-. eexists. now repeat split. }
  destruct Hwa as [Hwa Hha]. destruct Hwb as (ev & Hwb & Hev & Hhb).
  split; [|split; [|split]].
  - unfold upload_firmware. rewrite Hconn, Hopen. simpl negb. cbv iota.
    unfold try_except, upload_body, with_file.
    change (env (log (EvFileOpen firmware_path) w)) with (env w). rewrite Hfile.
    unfold finally, bind at 1. rewrite Hstart.
    unfold bind at 1. rewrite Hloop.
    unfold upload_handler, failure_message. rewrite Hnotfound, Hexc.
    now destruct (isinstance x SerialException).
  - unfold failure_message. destruct (isinstance x SerialException); apply str_in_suffix.
  - unfold is_open in *. simpl. rewrite Hhb, Hha, Hh.
    pose proof (keeps_upload_start ser (log (EvFileOpen firmware_path) w)) as [Hk _].
    rewrite Hstart in Hk. simpl in Hk. now rewrite Hk.
  - exists ([EvFileOpen firmware_path] ++ evs0 ++ evs
            ++ [EvWrite (ser_port ser) chunk] ++ [ev] ++ [EvFileClose firmware_path]),
      (chunks ++ [chunk]), rest'.
    split; [|split].
    + change (trace (log (EvFileClose firmware_path) wb))
        with (trace wb ++ [EvFileClose firmware_path]).
      rewrite Hwb, Hwa, Htr, Htr0.
      change (trace (log (EvFileOpen firmware_path) w))
        with (trace w ++ [EvFileOpen firmware_path]).
      now rewrite <- !app_assoc.
    + rewrite !writes_app, Hw0, Hw, Hev. reflexivity.
    + rewrite concat_app. simpl. rewrite app_nil_r, <- app_assoc. congruence.
Qed.

End Callback.

(** A callback that raises [FileNotFoundError] gets the message of a
    missing firmware file, which does not carry its description; one
    that raises outside [Exception] is not caught. *)
Lemma upload_firmware_callback_not_described :
  (fst (upload_firmware CallbackScenario.uploader "firmware.bin" 64
          (Some (Bench.raising CallbackScenario.log_missing)) CallbackScenario.connected)
   = Ret (failure "Firmware file not found: firmware.bin") /\
   str_in (str_of CallbackScenario.log_missing) "Firmware file not found: firmware.bin"
   = false) /\
  fst (upload_firmware CallbackScenario.uploader "firmware.bin" 64
         (Some (Bench.raising CallbackScenario.interrupt)) CallbackScenario.connected)
  = Raise CallbackScenario.interrupt.
Proof. vm_compute. repeat split. Qed.

Lemma upload_firmware_callback_raises_witness :
  exists w',
    upload_firmware CallbackScenario.uploader "firmware.bin" 64
      (Some (CallbackScenario.raising_after 64 CallbackScenario.widget_gone))
      CallbackScenario.connected
    = (Ret (failure "Upload failed: progress bar deleted"), w') /\
    is_open CallbackScenario.channel w' = true /\
    exists evs chunks rest',
      trace w' = trace CallbackScenario.connected ++ evs /\
      writes evs = b ("UPLOAD_START" ++ LF) :: chunks /\
      CallbackScenario.firmware = List.concat chunks ++ rest'.
Proof.
  pose (cb := CallbackScenario.raising_after 64 CallbackScenario.widget_gone).
  assert (Hconn : serial_conn CallbackScenario.uploader = Some CallbackScenario.channel)
    by reflexivity.
  assert (Hopen : is_open CallbackScenario.channel CallbackScenario.connected = true)
    by reflexivity.
  assert (Hfile : sys_file "firmware.bin" (env CallbackScenario.connected)
                  = Regular CallbackScenario.firmware) by reflexivity.
  assert (Hreach : upload_reaches CallbackScenario.channel "firmware.bin" 64 (Some cb)
                     CallbackScenario.firmware CallbackScenario.connected
                     (skipn 64 CallbackScenario.firmware) 64
                     (CallbackScenario.after_turn cb)).
  { exists CallbackScenario.at_loop. split; [reflexivity|].
    apply turns_more with (chunk := firstn 64 CallbackScenario.firmware)
                          (rest1 := skipn 64 CallbackScenario.firmware)
                          (sent1 := 64) (w1 := CallbackScenario.after_turn cb);
      [reflexivity|discriminate|reflexivity|apply turns_none]. }
  assert (Hraise : callback_raises CallbackScenario.channel 64 cb
                     (Z.of_nat (List.length CallbackScenario.firmware))
                     (skipn 64 CallbackScenario.firmware) 64
                     (CallbackScenario.after_turn cb)
                     CallbackScenario.widget_gone (CallbackScenario.at_raise cb)).
  { exists (firstn 64 (skipn 64 CallbackScenario.firmware)),
           (skipn 64 (skipn 64 CallbackScenario.firmware)),
           (snd (write CallbackScenario.channel
                   (firstn 64 (skipn 64 CallbackScenario.firmware))
                   (CallbackScenario.after_turn cb))).
    split; [reflexivity|]. split; [discriminate|]. split; reflexivity. }
  destruct (upload_firmware_callback_raises CallbackScenario.uploader
              CallbackScenario.channel "firmware.bin" 64 cb CallbackScenario.firmware
              CallbackScenario.connected (CallbackScenario.after_turn cb)
              (CallbackScenario.at_raise cb) (skipn 64 CallbackScenario.firmware) 64
              CallbackScenario.widget_gone Hconn Hopen Hfile Hreach Hraise
              eq_refl eq_refl)
    as (w' & Hrun & _ & Hstill & Hsent).
  exists w'. split; [exact Hrun|]. split; [exact Hstill|exact Hsent].
Defined.

(** * Further properties *)

(** ** Labels *)

(** X1: whatever the port, a label returned by [identify_by_vid_pid]
    is one of Arduino Uno, Arduino Mega, ESP32 and ESP32_ALT.  The
    registry's fifth label, Arduino Nano, is never returned: its pair
    is found first under ESP32_ALT. *)
Theorem identify_by_vid_pid_labels (port : port_info) (label : string) :
  identify_by_vid_pid port = Some label ->
  In label ["Arduino Uno"; "Arduino Mega"; "ESP32"; "ESP32_ALT"] /\
  label <> "Arduino Nano" /\
  In ("Arduino Nano", (0x1A86, 0x7523)) KNOWN_DEVICES.
Proof.
  unfold identify_by_vid_pid.
  destruct (vid port) as [v|]; [|discriminate].
  destruct (pid port) as [p|]; [|discriminate].
  unfold KNOWN_DEVICES, lookup_ids.
  repeat match goal with
         | |- context [if ?c then _ else _] => destruct c
         end; intros [= <-]; (split; [simpl; tauto|split; [discriminate|simpl; tauto]]).
Qed.

Lemma identify_by_vid_pid_labels_witness :
  In "ESP32_ALT" ["Arduino Uno"; "Arduino Mega"; "ESP32"; "ESP32_ALT"] /\
  "ESP32_ALT" <> "Arduino Nano" /\
  In ("Arduino Nano", (0x1A86, 0x7523)) KNOWN_DEVICES.
Proof.
  apply (identify_by_vid_pid_labels shared_port "ESP32_ALT"). reflexivity.
Defined.

Section Listing.

Context {E : Type} {P : Platform E}.

(** ** The list of all ports *)

Lemma get_all_devices_of_map ports : forall devices,
  get_all_devices_of ports devices = devices ++ map device_entry_of ports.
Proof.
  induction ports as [|port ports IH]; intros devices; simpl.
  - now rewrite app_nil_r.
  - rewrite IH, <- app_assoc. reflexivity.
Qed.

Lemma device_entry_type port :
  entry_device_type (device_entry_of port)
  = match identify_by_vid_pid port with Some label => label | None => "Unknown" end.
Proof.
  unfold device_entry_of, str_or. simpl.
  destruct (identify_by_vid_pid port) as [label|] eqn:Hid; [|reflexivity].
  now rewrite (identified_label_truthy _ _ Hid).
Qed.

(** X2: [get_all_devices] never raises and returns one entry per
    enumerated port, in enumeration order and under the port's own name
    and description, with the registry's label for the port as device
    type, or Unknown when the registry has none; it calls the
    enumeration once and nothing else, so it opens no port. *)
Theorem get_all_devices_lists_every_port (w : world E) :
  exists devices,
    get_all_devices w = (Ret devices, snd (list_all_ports w)) /\
    fst (list_all_ports w) = Ret (fst (sys_comports (env w))) /\
    map entry_port devices = map device (fst (sys_comports (env w))) /\
    map entry_description devices = map description (fst (sys_comports (env w))) /\
    map entry_device_type devices
      = map (fun port => match identify_by_vid_pid port with
                         | Some label => label
                         | None => "Unknown"
                         end) (fst (sys_comports (env w))) /\
    List.length devices = List.length (fst (sys_comports (env w))) /\
    trace (snd (list_all_ports w)) = trace w ++ [EvComports] /\
    open_handles (snd (list_all_ports w)) = open_handles w.
Proof.
  unfold get_all_devices, bind, list_all_ports. simpl.
  destruct (sys_comports (env w)) as [ports e]. simpl.
  exists (map device_entry_of ports). rewrite get_all_devices_of_map. simpl.
  rewrite !map_map, length_map.
  split; [reflexivity|]. split; [reflexivity|]. split; [reflexivity|].
  split; [reflexivity|]. split; [|now repeat split].
  apply map_ext. apply device_entry_type.
Qed.

End Listing.
Section HandshakeProtocol.

Context {E : Type} {P : Platform E}.

(** ** The handshake, call by call *)

Lemma occurs_same_length (needle hay : bytes) :
  occurs needle hay -> (List.length hay <= List.length needle)%nat -> hay = needle.
Proof.
  intros (before & after & ->) Hlen. rewrite !length_app in Hlen.
  destruct before; [|simpl in Hlen; lia].
  destruct after; [|simpl in Hlen; lia].
  simpl. now rewrite app_nil_r.
Qed.

Lemma handshake_exchange_length port_name baud_rate (e : E) response :
  handshake_exchange port_name baud_rate e = Answered response ->
  (List.length response <= 4)%nat.
Proof.
  unfold handshake_exchange.
  destruct (valid_baudrate baud_rate); [|discriminate].
  destruct (sys_open _ _ _) as [[f|] e1]; [discriminate|].
  destruct (sys_reset_input _ _) as [[f|] e2]; [discriminate|].
  destruct (sys_write _ _ _) as [[f|] e3]; [discriminate|].
  destruct (sys_read _ _ _) as [[f|data] e4]; [discriminate|].
  intros H. injection H as H. rewrite <- H. exact (firstn_le_length 4 data).
Qed.

(** X3: the handshake reads at most four bytes, so the containment test
    is an equality: [verify_by_handshake] returns true exactly when the
    exchange ran to its end and the bytes read are PONG and nothing
    else.  An answer with anything before PONG is a failed handshake. *)
Theorem verify_by_handshake_exact port_name baud_rate (w : world E) :
  fst (verify_by_handshake port_name baud_rate w) = Ret true <->
  handshake_exchange port_name baud_rate (env w) = Answered HANDSHAKE_RESPONSE.
Proof.
  rewrite verify_by_handshake_result.
  destruct (valid_baudrate baud_rate) eqn:Hvalid.
  2: { unfold handshake_exchange. rewrite Hvalid. split; discriminate. }
  destruct (handshake_exchange port_name baud_rate (env w)) as [| |response] eqn:Hex.
  - split; discriminate.
  - split; discriminate.
  - pose proof (handshake_exchange_length _ _ _ _ Hex) as Hlen. split.
    + intros [= Hin]. apply bytes_in_occurs in Hin.
      now rewrite (occurs_same_length _ _ Hin Hlen).
    + intros [= ->]. reflexivity.
Qed.


End HandshakeProtocol.
Section DetectionMore.

Context {E : Type} {P : Platform E}.

(** ** Detection: resources, calls and provenance *)

Lemma with_serial_next {A} port_name baud timeout (body : Serial -> M E A) w :
  (forall ser, keeps_handles (body ser)) ->
  (next_handle w <= next_handle (snd (with_serial port_name baud timeout body w)))%nat.
Proof.
  intros Hbody. unfold with_serial, bind, Serial_new.
  destruct (valid_baudrate baud); [|simpl; lia].
  destruct (sys_open _ _ _) as [[f|] e]; [simpl; lia|].
  unfold finally.
  match goal with |- context [body ?s ?w0] =>
    destruct (Hbody s w0) as [H1 H2]; destruct (body s w0) as [r w1] end.
  simpl in H1, H2. unfold Serial_close.
  destruct (is_open _ w1); simpl; lia.
Qed.

Lemma verify_by_handshake_next port_name baud_rate (w : world E) :
  (next_handle w <= next_handle (snd (verify_by_handshake port_name baud_rate w)))%nat.
Proof.
  unfold verify_by_handshake, try_except.
  match goal with |- context [with_serial ?p ?bd ?t ?body w] =>
    assert (Hw : (next_handle w <= next_handle (snd (with_serial p bd t body w)))%nat)
      by (apply with_serial_next; intros ser; auto 20 with handles);
    destruct (with_serial p bd t body w) as [[ok|e] w1] end.
  - exact Hw.
  - simpl in Hw. now destruct (_ || _).
Qed.

(** A handshake keeps the handles fresh. *)
Lemma verify_by_handshake_fresh port_name baud_rate (w : world E) :
  fresh_handles w -> fresh_handles (snd (verify_by_handshake port_name baud_rate w)).
Proof.
  intros Hfresh. unfold fresh_handles.
  rewrite (verify_by_handshake_handles _ _ _ Hfresh).
  pose proof (verify_by_handshake_next port_name baud_rate w) as Hnext.
  eapply Forall_impl; [|exact Hfresh]. simpl. intros h Hh. lia.
Qed.

Lemma scanned_handles try_handshake ports (w : world E) cands w' :
  scanned try_handshake ports w cands w' ->
  fresh_handles w -> open_handles w' = open_handles w /\ fresh_handles w'.
Proof.
  induction 1 as [w|port ports w cands w' Hid _ IH
                 |port ports label ok w w1 cands w' Hid Htry Hv _ IH
                 |port ports label w cands w' Hid Htry _ IH]; intros Hfresh.
  - now split.
  - now apply IH.
  - pose proof (verify_by_handshake_handles (device port) 115200 w Hfresh) as Hh.
    pose proof (verify_by_handshake_fresh (device port) 115200 w Hfresh) as Hf.
    rewrite Hv in Hh, Hf. simpl in Hh, Hf.
    destruct (IH Hf) as [IH1 IH2]. split; [congruence|exact IH2].
  - now apply IH.
Qed.

Lemma all_fail_handles ports (w w' : world E) :
  all_fail ports w w' ->
  fresh_handles w -> open_handles w' = open_handles w /\ fresh_handles w'.
Proof.
  induction 1 as [w|port ports w w1 w' Hv _ IH]; intros Hfresh.
  - now split.
  - pose proof (verify_by_handshake_handles (device port) 115200 w Hfresh) as Hh.
    pose proof (verify_by_handshake_fresh (device port) 115200 w Hfresh) as Hf.
    rewrite Hv in Hh, Hf. simpl in Hh, Hf.
    destruct (IH Hf) as [IH1 IH2]. split; [congruence|exact IH2].
Qed.

Lemma first_answer_handles ports (w : world E) found w' :
  first_answer ports w found w' ->
  fresh_handles w -> open_handles w' = open_handles w.
Proof.
  destruct found as [c|]; simpl.
  - intros (before & port & after & wm & _ & Hfail & Hok & _) Hfresh.
    destruct (all_fail_handles _ _ _ Hfail Hfresh) as [Hh Hf].
    pose proof (verify_by_handshake_handles (device port) 115200 wm Hf) as Hv.
    rewrite Hok in Hv. simpl in Hv. congruence.
  - intros Hfail Hfresh. now apply (all_fail_handles _ _ _ Hfail Hfresh).
Qed.

(** The outcome of [detect_device] in terms of its two loops. *)
Lemma detect_device_outcome try_handshake (w : world E) :
  exists found w',
    detect_device try_handshake w = (Ret found, w') /\
    exists cands w1,
      scanned try_handshake (fst (sys_comports (env w))) (snd (list_all_ports w)) cands w1 /\
      ((cands <> [] /\ w' = w1 /\ exists c, found = Some c /\ In c cands) \/
       (cands = [] /\ try_handshake = true /\
        first_answer (fst (sys_comports (env w))) w1 found w') \/
       (cands = [] /\ try_handshake = false /\ found = None /\ w' = w1)).
Proof.
  unfold detect_device, bind.
  assert (Hports : list_all_ports w
                   = (Ret (fst (sys_comports (env w))), snd (list_all_ports w))).
  { unfold list_all_ports. simpl. now destruct (sys_comports (env w)). }
  rewrite Hports. set (ports := fst (sys_comports (env w))). set (w0 := snd (list_all_ports w)).
  destruct (scan_ports_scanned try_handshake ports [] w0) as (cands & w1 & Hscan & Hsc).
  change ([] ++ cands) with cands in Hscan.
  destruct ports as [|port ports'] eqn:Hp.
  { inversion Hsc; subst. exists None, w0. split; [reflexivity|].
    exists [], w0. split; [constructor|].
    destruct try_handshake.
    - right; left. repeat split. constructor.
    - right; right. now repeat split. }
  rewrite Hscan.
  destruct (filter cand_verified cands) as [|v0 vs] eqn:Hfilter.
  - destruct cands as [|c0 cands'].
    + destruct try_handshake.
      * destruct (probe_ports_first_answer (port :: ports') w1) as (found & w' & Hpp & Hfa).
        exists found, w'. split; [exact Hpp|]. exists [], w1. split; [exact Hsc|].
        right; left. now repeat split.
      * exists None, w1. split; [reflexivity|]. exists [], w1. split; [exact Hsc|].
        right; right. now repeat split.
    + exists (Some c0), w1. split; [reflexivity|]. exists (c0 :: cands'), w1.
      split; [exact Hsc|]. left. split; [discriminate|]. split; [reflexivity|].
      exists c0. split; [reflexivity|now left].
  - exists (Some v0), w1. split; [reflexivity|]. exists cands, w1.
    split; [exact Hsc|]. left.
    assert (Hin : In v0 (filter cand_verified cands)) by (rewrite Hfilter; now left).
    apply filter_In in Hin as [Hin _].
    split; [intros ->; destruct Hin|]. split; [reflexivity|].
    exists v0. now split.
Qed.

(** X5: whatever the devices do, [detect_device] returns (it never
    raises) and leaves no port open: the open handles after the call are
    those before it. *)
Theorem detect_device_releases try_handshake (w : world E) :
  fresh_handles w ->
  exists found w',
    detect_device try_handshake w = (Ret found, w') /\
    open_handles w' = open_handles w.
Proof.
  intros Hfresh.
  destruct (detect_device_outcome try_handshake w)
    as (found & w' & Hrun & cands & w1 & Hsc & Hcases).
  exists found, w'. split; [exact Hrun|].
  assert (Hfresh0 : fresh_handles (snd (list_all_ports w))).
  { unfold list_all_ports. simpl. now destruct (sys_comports (env w)). }
  assert (Hh0 : open_handles (snd (list_all_ports w)) = open_handles w)
    by apply keeps_list_all_ports.
  destruct (scanned_handles _ _ _ _ _ Hsc Hfresh0) as [Hh1 Hf1].
  destruct Hcases as [(_ & -> & _)|[(_ & _ & Hfa)|(_ & _ & _ & ->)]].
  - congruence.
  - rewrite (first_answer_handles _ _ _ _ Hfa Hf1). congruence.
  - congruence.
Qed.

End DetectionMore.
Section DetectionProvenance.

Context {E : Type} {P : Platform E}.

Lemma scanned_trusting ports (w : world E) cands w' :
  scanned false ports w cands w' ->
  w' = w /\ filter cand_verified cands = cands /\ hd_error cands = first_identified ports.
Proof.
  induction 1 as [w|port ports w cands w' Hid _ IH
                 |port ports label ok w w1 cands w' Hid Htry Hv _ IH
                 |port ports label w cands w' Hid Htry _ IH].
  - now repeat split.
  - simpl. now rewrite Hid.
  - discriminate Htry.
  - destruct IH as (-> & Hall & _). simpl. rewrite Hid, Hall. now repeat split.
Qed.

(** X6: with handshakes off [detect_device] opens no port: its only
    call is the enumeration.  It returns the first port the registry
    identifies, marked verified, and [None] when the registry identifies
    none. *)
Theorem detect_device_without_handshake (w : world E) :
  detect_device false w
    = (Ret (first_identified (fst (sys_comports (env w)))), snd (list_all_ports w)) /\
  trace (snd (list_all_ports w)) = trace w ++ [EvComports].
Proof.
  split; [|unfold list_all_ports; simpl; now destruct (sys_comports (env w))].
  unfold detect_device, bind.
  assert (Hports : list_all_ports w
                   = (Ret (fst (sys_comports (env w))), snd (list_all_ports w))).
  { unfold list_all_ports. simpl. now destruct (sys_comports (env w)). }
  rewrite Hports. set (ports := fst (sys_comports (env w))). set (w0 := snd (list_all_ports w)).
  destruct (scan_ports_scanned false ports [] w0) as (cands & w1 & Hscan & Hsc).
  change ([] ++ cands) with cands in Hscan.
  destruct (scanned_trusting _ _ _ _ Hsc) as (-> & Hall & Hhd).
  destruct ports as [|port ports'] eqn:Hp; [reflexivity|].
  rewrite Hscan, Hall, <- Hhd. now destruct cands.
Qed.

Lemma scanned_from_ports try_handshake ports (w : world E) cands w' :
  scanned try_handshake ports w cands w' ->
  (forall c, In c cands ->
     exists port, In port ports /\
       identify_by_vid_pid port = Some (cand_device_type c) /\
       cand_port c = device port /\ cand_description c = description port /\
       cand_vid c = vid port /\ cand_pid c = pid port) /\
  (cands = [] -> forall port, In port ports -> identify_by_vid_pid port = None).
Proof.
  induction 1 as [w|port ports w cands w' Hid _ IH
                 |port ports label ok w w1 cands w' Hid Htry Hv _ IH
                 |port ports label w cands w' Hid Htry _ IH].
  - split; [intros c []|intros _ port []].
  - destruct IH as [IH1 IH2]. split.
    + intros c Hc. destruct (IH1 c Hc) as (p & Hp & Hrest). exists p. split; [now right|exact Hrest].
    + intros Hnil p [<-|Hp]; [exact Hid|now apply IH2].
  - destruct IH as [IH1 _]. split; [|discriminate].
    intros c [<-|Hc].
    + exists port. split; [now left|]. now repeat split.
    + destruct (IH1 c Hc) as (p & Hp & Hrest). exists p. split; [now right|exact Hrest].
  - destruct IH as [IH1 _]. split; [|discriminate].
    intros c [<-|Hc].
    + exists port. split; [now left|]. now repeat split.
    + destruct (IH1 c Hc) as (p & Hp & Hrest). exists p. split; [now right|exact Hrest].
Qed.

(** X7: a device returned by [detect_device] is one of the enumerated
    ports, under its own name and description.  Either the registry
    identifies that port with the device type returned, and the
    identifiers are the port's; or the device type is Unknown, which
    happens only with handshakes on, for a verified device, and when the
    registry identifies none of the ports. *)
Theorem detect_device_from_ports try_handshake (w w' : world E) (c : candidate) :
  detect_device try_handshake w = (Ret (Some c), w') ->
  exists port,
    In port (fst (sys_comports (env w))) /\
    cand_port c = device port /\ cand_description c = description port /\
    ((identify_by_vid_pid port = Some (cand_device_type c) /\
      cand_vid c = vid port /\ cand_pid c = pid port) \/
     (cand_device_type c = "Unknown" /\ cand_verified c = true /\
      try_handshake = true /\
      forall p, In p (fst (sys_comports (env w))) -> identify_by_vid_pid p = None)).
Proof.
  intros Hrun.
  destruct (detect_device_outcome try_handshake w)
    as (found & w2 & Hrun' & cands & w1 & Hsc & Hcases).
  rewrite Hrun in Hrun'. injection Hrun' as <- <-.
  destruct (scanned_from_ports _ _ _ _ _ Hsc) as [Hfrom Hnone].
  destruct Hcases as [(_ & _ & c0 & [= <-] & Hin)|[(Hnil & Htry & Hfa)|(_ & _ & Hno & _)]].
  - destruct (Hfrom c Hin) as (port & Hp & Hid & Hport & Hdesc & Hvid & Hpid).
    exists port. split; [exact Hp|]. split; [exact Hport|]. split; [exact Hdesc|].
    left. now repeat split.
  - simpl in Hfa. destruct Hfa as (before & port & after & wm & Hsplit & _ & _ & -> & _).
    exists port. split; [rewrite Hsplit; apply in_or_app; right; now left|].
    split; [reflexivity|]. split; [reflexivity|].
    right. split; [reflexivity|]. split; [reflexivity|]. split; [exact Htry|].
    now apply Hnone.
  - discriminate Hno.
Qed.

End DetectionProvenance.
Ltac handshake_events :=
  repeat (apply Forall_cons; [simpl; tauto|]); apply Forall_nil.

Section DetectionCalls.

Context {E : Type} {P : Platform E}.

(** ** What detection does to the ports *)

Lemma verify_by_handshake_events port_name (w : world E) :
  exists evs,
    trace (snd (verify_by_handshake port_name 115200 w)) = trace w ++ evs /\
    Forall handshake_event evs.
Proof.
  unfold verify_by_handshake, try_except, with_serial, bind,
    Serial_new, finally, sleep, reset_input_buffer, write, read, io_call.
  simpl.
  destruct (sys_open _ _ _) as [[f|] e1].
  { destruct f as [[] ?]; simpl; eexists; (split; [reflexivity|]);
      handshake_events. }
  simpl. destruct (sys_reset_input _ _) as [[f|] e2]; simpl.
  { unfold Serial_close, is_open; simpl. rewrite Nat.eqb_refl; simpl.
    destruct f as [[] ?]; simpl; eexists; rewrite <- !app_assoc;
      (split; [reflexivity|]); handshake_events. }
  destruct (sys_write _ _ _) as [[f|] e3]; simpl.
  { unfold Serial_close, is_open; simpl. rewrite Nat.eqb_refl; simpl.
    destruct f as [[] ?]; simpl; eexists; rewrite <- !app_assoc;
      (split; [reflexivity|]); handshake_events. }
  destruct (sys_read _ _ _) as [[f|data] e4]; simpl.
  { unfold Serial_close, is_open; simpl. rewrite Nat.eqb_refl; simpl.
    destruct f as [[] ?]; simpl; eexists; rewrite <- !app_assoc;
      (split; [reflexivity|]); handshake_events. }
  unfold Serial_close, is_open.
  match goal with |- context [if ?c then ret true else ret false] => destruct c end;
    simpl; rewrite Nat.eqb_refl; simpl; eexists; rewrite <- !app_assoc;
    (split; [reflexivity|]); handshake_events.
Qed.

Lemma scanned_events try_handshake ports (w : world E) cands w' :
  scanned try_handshake ports w cands w' ->
  exists evs, trace w' = trace w ++ evs /\ Forall handshake_event evs.
Proof.
  induction 1 as [w|port ports w cands w' Hid _ IH
                 |port ports label ok w w1 cands w' Hid Htry Hv _ IH
                 |port ports label w cands w' Hid Htry _ IH].
  - exists []. rewrite app_nil_r. now split.
  - exact IH.
  - destruct (verify_by_handshake_events (device port) w) as (evs1 & Htr1 & Hall1).
    rewrite Hv in Htr1. simpl in Htr1.
    destruct IH as (evs & Htr & Hall).
    exists (evs1 ++ evs). rewrite Htr, Htr1, app_assoc. split; [reflexivity|].
    apply Forall_app. now split.
  - exact IH.
Qed.

Lemma all_fail_events ports (w w' : world E) :
  all_fail ports w w' ->
  exists evs, trace w' = trace w ++ evs /\ Forall handshake_event evs.
Proof.
  induction 1 as [w|port ports w w1 w' Hv _ IH].
  - exists []. rewrite app_nil_r. now split.
  - destruct (verify_by_handshake_events (device port) w) as (evs1 & Htr1 & Hall1).
    rewrite Hv in Htr1. simpl in Htr1.
    destruct IH as (evs & Htr & Hall).
    exists (evs1 ++ evs). rewrite Htr, Htr1, app_assoc. split; [reflexivity|].
    apply Forall_app. now split.
Qed.

Lemma first_answer_events ports (w : world E) found w' :
  first_answer ports w found w' ->
  exists evs, trace w' = trace w ++ evs /\ Forall handshake_event evs.
Proof.
  destruct found as [c|]; simpl; [|apply all_fail_events].
  intros (before & port & after & wm & _ & Hfail & Hok & _).
  destruct (all_fail_events _ _ _ Hfail) as (evs & Htr & Hall).
  destruct (verify_by_handshake_events (device port) wm) as (evs1 & Htr1 & Hall1).
  rewrite Hok in Htr1. simpl in Htr1.
  exists (evs ++ evs1). rewrite Htr1, Htr, app_assoc. split; [reflexivity|].
  apply Forall_app. now split.
Qed.

(** X8: what [detect_device] does to the system.  It enumerates the
    ports once; every call after that belongs to a handshake: ports are
    opened at 115200 baud with a timeout of 2, the only bytes ever
    written to a port are the PING command, reads ask for 4 bytes.  It
    never touches the file system or the output buffer. *)
Theorem detect_device_calls try_handshake (w : world E) :
  exists evs,
    trace (snd (detect_device try_handshake w)) = trace w ++ EvComports :: evs /\
    Forall handshake_event evs /\
    Forall (fun data => data = HANDSHAKE_COMMAND) (writes evs).
Proof.
  destruct (detect_device_outcome try_handshake w)
    as (found & w' & Hrun & cands & w1 & Hsc & Hcases).
  rewrite Hrun. simpl.
  assert (Htr0 : trace (snd (list_all_ports w)) = trace w ++ [EvComports]).
  { unfold list_all_ports. simpl. now destruct (sys_comports (env w)). }
  destruct (scanned_events _ _ _ _ _ Hsc) as (evs1 & Htr1 & Hall1).
  assert (Hev : exists evs, trace w' = trace w ++ EvComports :: evs /\
                            Forall handshake_event evs).
  { destruct Hcases as [(_ & -> & _)|[(_ & _ & Hfa)|(_ & _ & _ & ->)]].
    - exists evs1. rewrite Htr1, Htr0, <- app_assoc. now split.
    - destruct (first_answer_events _ _ _ _ Hfa) as (evs2 & Htr2 & Hall2).
      exists (evs1 ++ evs2). rewrite Htr2, Htr1, Htr0, <- !app_assoc.
      split; [reflexivity|]. apply Forall_app. now split.
    - exists evs1. rewrite Htr1, Htr0, <- app_assoc. now split. }
  destruct Hev as (evs & Htr & Hall). exists evs. split; [exact Htr|]. split; [exact Hall|].
  clear Htr. induction Hall as [|ev evs Hev _ IH]; [constructor|].
  destruct ev; simpl in *; try exact IH. constructor; [exact Hev|exact IH].
Qed.

(** X9: detection and listing agree.  A device returned by
    [detect_device] has the device type that [get_all_devices] shows
    for that port: the registry's label, or Unknown. *)
Theorem detect_device_agrees_with_listing try_handshake (w w' : world E) (c : candidate) :
  detect_device try_handshake w = (Ret (Some c), w') ->
  exists port,
    In port (fst (sys_comports (env w))) /\
    entry_port (device_entry_of port) = cand_port c /\
    entry_device_type (device_entry_of port) = cand_device_type c /\
    entry_description (device_entry_of port) = cand_description c.
Proof.
  intros Hrun.
  destruct (detect_device_outcome try_handshake w)
    as (found & w2 & Hrun' & cands & w1 & Hsc & Hcases).
  rewrite Hrun in Hrun'. injection Hrun' as <- <-.
  destruct (scanned_from_ports _ _ _ _ _ Hsc) as [Hfrom Hnone].
  destruct Hcases as [(_ & _ & c0 & [= <-] & Hin)|[(Hnil & Htry & Hfa)|(_ & _ & Hno & _)]].
  - destruct (Hfrom c Hin) as (port & Hp & Hid & Hport & Hdesc & _).
    exists port. split; [exact Hp|].
    unfold device_entry_of. simpl. rewrite Hid.
    unfold str_or. rewrite (identified_label_truthy _ _ Hid). now repeat split.
  - simpl in Hfa. destruct Hfa as (before & port & after & wm & Hsplit & _ & _ & -> & _).
    assert (Hp : In port (fst (sys_comports (env w))))
      by (rewrite Hsplit; apply in_or_app; right; now left).
    exists port. split; [exact Hp|].
    unfold device_entry_of. simpl. rewrite (Hnone Hnil port Hp). now repeat split.
  - discriminate Hno.
Qed.

End DetectionCalls.
Section ConnectionLifecycle.

Context {E : Type} {P : Platform E}.

(** ** The life of a connection *)

(** X10: [open_connection] calls [serial.Serial] once, with both
    timeouts at 5.  At a baud rate the constructor accepts, the driver
    is asked for the port: when the port opens, [open_connection] waits
    2000 ms and returns true, and the uploader holds a new, open
    connection; when the driver raises [SerialException] it returns
    false and the uploader is as before; a failure of another class is
    not caught: it propagates to the caller.  At a baud rate the
    constructor refuses, its [ValueError] propagates to the caller as
    well, the driver not being asked.  Whenever [open_connection] does
    not return true, no handle is open that was not open before. *)
Theorem open_connection_outcome (self : FirmwareUploader) (w : world E) :
  if valid_baudrate (baud_rate self) then
    match fst (sys_open (port self) (baud_rate self) (env w)) with
    | None =>
        exists ser w',
          open_connection self w = (Ret (true, set_serial_conn self ser), w') /\
          ser_port ser = port self /\ handle ser = next_handle w /\
          is_open ser w' = true /\
          open_handles w' = next_handle w :: open_handles w /\
          trace w' = trace w ++ [EvSerialOpen (port self) (baud_rate self) 5 (Some 5);
                                 EvSleep 2000]
    | Some f =>
        exists w',
          open_connection self w
            = (if io_serial f then Ret (false, self) else Raise (exn_of_io f), w') /\
          open_handles w' = open_handles w /\
          trace w' = trace w ++ [EvSerialOpen (port self) (baud_rate self) 5 (Some 5)]
    end
  else
    open_connection self w
      = (Raise (invalid_baudrate (baud_rate self)),
         log (EvSerialOpen (port self) (baud_rate self) 5 (Some 5)) w).
Proof.
  unfold open_connection, try_except, bind, Serial_new, sleep. simpl.
  destruct (valid_baudrate (baud_rate self)); [|reflexivity].
  destruct (sys_open (port self) (baud_rate self) (env w)) as [[f|] e]; simpl.
  - destruct f as [[] msg]; simpl; eexists; now repeat split.
  - eexists; eexists. split; [reflexivity|]. simpl.
    unfold is_open. simpl. rewrite Nat.eqb_refl. simpl.
    rewrite <- app_assoc. now repeat split.
Qed.

Lemma open_connection_opened (self self' : FirmwareUploader) (w w1 : world E) :
  open_connection self w = (Ret (true, self'), w1) ->
  exists ser,
    serial_conn self' = Some ser /\ handle ser = next_handle w /\
    open_handles w1 = next_handle w :: open_handles w.
Proof.
  unfold open_connection, try_except, bind, Serial_new, sleep. simpl.
  destruct (valid_baudrate (baud_rate self)); [|discriminate].
  destruct (sys_open (port self) (baud_rate self) (env w)) as [[f|] e]; simpl.
  - destruct f as [[] msg]; simpl; discriminate.
  - intros [= <- <-]. eexists. now repeat split.
Qed.

(** X11: the life cycle the caller follows.  After a successful
    [open_connection], [upload_firmware] in a [try] with
    [close_connection] in its [finally] gives the outcome of the upload
    unchanged, success or failure, and leaves the connection closed and
    the open handles as they were before the connection was opened. *)
Theorem upload_session_releases (self self' : FirmwareUploader) (firmware_path : string)
  (chunk_size : Z) (progress_callback : option (callback E)) (w w1 : world E) :
  fresh_handles w ->
  open_connection self w = (Ret (true, self'), w1) ->
  let session :=
    finally (upload_firmware self' firmware_path chunk_size progress_callback)
            (close_connection self') w1 in
  fst session = fst (upload_firmware self' firmware_path chunk_size progress_callback w1) /\
  conn_is_open self' (snd session) = false /\
  open_handles (snd session) = open_handles w.
Proof.
  intros Hfresh Hopen.
  destruct (open_connection_opened _ _ _ _ Hopen) as (ser & Hconn & Hhandle & Hhandles).
  pose proof (keeps_upload_firmware self' firmware_path chunk_size progress_callback w1)
    as [Hkeep _].
  unfold finally, close_connection, conn_is_open. rewrite Hconn.
  destruct (upload_firmware self' firmware_path chunk_size progress_callback w1) as [r w2].
  simpl in Hkeep. unfold is_open at 1. rewrite Hkeep, Hhandles, Hhandle. simpl.
  rewrite Nat.eqb_refl. simpl.
  unfold Serial_close, is_open. rewrite Hkeep, Hhandles, Hhandle. simpl.
  rewrite Nat.eqb_refl. simpl.
  rewrite Hkeep, Hhandles. simpl. rewrite Nat.eqb_refl. simpl.
  split; [reflexivity|]. split.
  - rewrite <- Hhandle. apply is_open_filter_out.
  - now apply filter_fresh.
Qed.

(** X12: use after close.  Once [close_connection] has run, whatever
    the state of the uploader was, [upload_firmware] returns the
    failure result for a connection that is not open and makes no call
    at all. *)
Theorem upload_firmware_after_close (self : FirmwareUploader) (firmware_path : string)
  (chunk_size : Z) (progress_callback : option (callback E)) (w : world E) :
  (close_connection self ;;
   upload_firmware self firmware_path chunk_size progress_callback) w
  = (Ret (failure "Serial connection not open"), snd (close_connection self w)).
Proof.
  unfold bind, close_connection, upload_firmware.
  destruct (serial_conn self) as [ser|]; [|reflexivity].
  destruct (is_open ser w) eqn:Hopen.
  - pose proof (Serial_close_closed ser w) as Hclosed.
    unfold Serial_close in *. rewrite Hopen in *. simpl in *. now rewrite Hclosed.
  - simpl. now rewrite Hopen.
Qed.

End ConnectionLifecycle.
Section UploadFailures.

Context {E : Type} {P : Platform E}.

(** ** Failures of the upload *)














(** X14: a firmware file that exists and cannot be opened gives, over
    an open connection, the failure result of the last [except] clause,
    with the description of the error; the only call made is the
    attempt to open the file: nothing is sent to the device. *)
Theorem upload_firmware_unreadable_file (self : FirmwareUploader) (firmware_path : string)
  (chunk_size : Z) (progress_callback : option (callback E)) (w : world E) (why : string) :
  conn_is_open self w = true ->
  sys_file firmware_path (env w) = Unreadable why ->
  upload_firmware self firmware_path chunk_size progress_callback w
    = (Ret (failure ("Upload failed: " ++ why)), log (EvFileOpen firmware_path) w).
Proof.
  unfold upload_firmware, conn_is_open.
  destruct (serial_conn self) as [ser|]; [|discriminate].
  intros -> Hfile. simpl.
  unfold try_except, upload_body, with_file. simpl. now rewrite Hfile.
Qed.

(** X15: a write that fails in the middle of the transfer.  When the
    upload has reached a turn of the loop and the driver refuses the
    chunk, [upload_firmware] returns a failure result with the
    description of the failure, after Serial communication error: for a
    [SerialException] and after Upload failed: otherwise; the result
    has no [bytes_sent], whatever was sent before; the callback is not
    called for the chunk, no completion marker is written, and the
    connection is left open. *)
Theorem upload_firmware_write_fails (self : FirmwareUploader) (ser : Serial)
  (firmware_path : string) (chunk_size : Z) (progress_callback : option (callback E))
  (content : bytes) (w wk : world E) (rest chunk rest' : bytes) (sent : Z)
  (f : io_failure) (e' : E) :
  serial_conn self = Some ser ->
  is_open ser w = true ->
  sys_file firmware_path (env w) = Regular content ->
  upload_reaches ser firmware_path chunk_size progress_callback content w rest sent wk ->
  file_read chunk_size rest = Ret (chunk, rest') ->
  chunk <> [] ->
  sys_write (ser_port ser) chunk (env wk) = (Some f, e') ->
  exists w',
    upload_firmware self firmware_path chunk_size progress_callback w
      = (Ret (failure (failure_message (exn_of_io f))), w') /\
    bytes_sent (failure (failure_message (exn_of_io f))) = None /\
    trace w' = trace wk ++ [EvWrite (ser_port ser) chunk; EvFileClose firmware_path] /\
    is_open ser w' = true.
Proof.
  intros Hconn Hopen Hfile (w0 & Hstart & Hturns) Hread Hne Hfail.
  set (wb := with_env e' (log (EvWrite (ser_port ser) chunk) wk)).
  exists (log (EvFileClose firmware_path) wb).
  destruct (turns_trace _ _ _ _ _ _ _ _ _ _ Hturns) as (Hh & _).
  destruct (file_read_split _ _ _ _ Hread) as [Hsplit Hless]. specialize (Hless Hne).
  assert (Hloop : upload_loop (List.length content) ser chunk_size progress_callback
                    (Z.of_nat (List.length content)) content 0 w0
                  = (Raise (exn_of_io f), wb)).
  { rewrite (turns_loop _ _ _ _ _ _ _ _ _ _ Hturns) by lia.
    destruct (List.length rest) as [|fuel] eqn:Hlen; [lia|]. simpl. rewrite Hread.
    destruct chunk as [|c chunk]; [congruence|].
    unfold bind, send_chunk, bind, write, io_call. simpl. now rewrite Hfail. }
  split; [|split; [reflexivity|split]].
  - unfold upload_firmware. rewrite Hconn, Hopen. simpl negb. cbv iota.
    unfold try_except, upload_body, with_file.
    change (env (log (EvFileOpen firmware_path) w)) with (env w). rewrite Hfile.
    unfold finally, bind at 1. rewrite Hstart.
    unfold bind at 1. rewrite Hloop.
    unfold upload_handler, failure_message.
    now destruct f as [[] msg].
  - simpl. now rewrite <- app_assoc.
  - unfold is_open in *. simpl. rewrite Hh.
    pose proof (keeps_upload_start ser (log (EvFileOpen firmware_path) w)) as [Hk _].
    rewrite Hstart in Hk. simpl in Hk. now rewrite Hk.
Qed.

End UploadFailures.
(** ** What a successful upload sends and reports *)

Lemma progress_calls_app t1 t2 :
  Bench.progress_calls (t1 ++ t2) = Bench.progress_calls t1 ++ Bench.progress_calls t2.
Proof.
  induction t1 as [|ev t1 IH]; simpl; [reflexivity|].
  destruct ev; simpl; now rewrite ?IH.
Qed.

Lemma running_totals_length sent chunks :
  List.length (running_totals sent chunks) = List.length chunks.
Proof.
  revert sent. induction chunks as [|chunk chunks IH]; intros sent; simpl; [reflexivity|].
  now rewrite IH.
Qed.

Lemma running_totals_last sent chunks d :
  chunks <> [] ->
  last (running_totals sent chunks) d = sent + Z.of_nat (List.length (List.concat chunks)).
Proof.
  revert sent. induction chunks as [|chunk chunks IH]; intros sent Hne; [congruence|].
  destruct chunks as [|chunk' chunks].
  - simpl. rewrite app_nil_r. reflexivity.
  - change (running_totals sent (chunk :: chunk' :: chunks))
      with (sent + Z.of_nat (List.length chunk)
            :: running_totals (sent + Z.of_nat (List.length chunk)) (chunk' :: chunks)).
    change (List.concat (chunk :: chunk' :: chunks))
      with (chunk ++ List.concat (chunk' :: chunks)).
    rewrite length_app, Nat2Z.inj_add, Z.add_assoc, <- IH by discriminate.
    reflexivity.
Qed.

(** After [i + 1] chunks of [size] bytes the total is [(i + 1) * size],
    capped by the length of the file. *)
Lemma running_totals_chunked size chunks :
  chunked size chunks ->
  forall sent i s,
    nth_error (running_totals sent chunks) i = Some s ->
    s = Z.min (sent + (Z.of_nat i + 1) * Z.of_nat size)
              (sent + Z.of_nat (List.length (List.concat chunks))).
Proof.
  induction chunks as [|chunk chunks IH]; intros Hch sent i s.
  - destruct i; discriminate.
  - destruct chunks as [|chunk' chunks].
    + simpl in Hch. destruct i as [|i]; [|destruct i; discriminate].
      cbn [running_totals nth_error List.concat]. rewrite app_nil_r.
      intros [= <-]. rewrite Z.min_r; lia.
    + destruct Hch as [Hlen Hch].
      change (List.concat (chunk :: chunk' :: chunks))
        with (chunk ++ List.concat (chunk' :: chunks)).
      rewrite length_app. destruct i as [|i].
      * cbn [running_totals nth_error]. intros [= <-]. rewrite Z.min_l; lia.
      * change (nth_error (running_totals sent (chunk :: chunk' :: chunks)) (S i))
          with (nth_error (running_totals (sent + Z.of_nat (List.length chunk))
                             (chunk' :: chunks)) i).
        intros Hnth. rewrite (IH Hch _ _ _ Hnth). lia.
Qed.

Section UploadReports.

Context {E : Type} {P : Platform E}.

Lemma send_chunk_events ser (cb : option (callback E)) n chunk sent (w : world E) sent1 w1 :
  send_chunk ser cb n chunk sent w = (Ret sent1, w1) ->
  sent1 = sent + Z.of_nat (List.length chunk) /\
  exists evs,
    trace w1 = trace w ++ evs /\ writes evs = [chunk] /\
    Bench.progress_calls evs =
      match cb with
      | Some _ => [(progress_percent sent1 n, sent1, n)]
      | None => []
      end.
Proof.
  unfold send_chunk, bind, write, io_call, sleep, ret.
  destruct (sys_write _ _ _) as [[f|] e]; [discriminate|].
  destruct cb as [cb|].
  - unfold call_progress.
    destruct (cb _ _ _ _) as [[x|] e']; [discriminate|].
    intros [= <- <-]. split; [reflexivity|]. simpl.
    eexists. rewrite <- !app_assoc. now repeat split.
  - intros [= <- <-]. split; [reflexivity|]. simpl.
    eexists. rewrite <- !app_assoc. now repeat split.
Qed.

(** A loop that runs to the end: what it wrote and how it reported. *)
Lemma upload_loop_events ser chunk_size (cb : option (callback E)) n :
  forall fuel rest sent (w : world E) sent' w',
    upload_loop fuel ser chunk_size cb n rest sent w = (Ret sent', w') ->
    exists evs chunks rest',
      trace w' = trace w ++ evs /\ writes evs = chunks /\
      rest = List.concat chunks ++ rest' /\
      sent' = sent + Z.of_nat (List.length (List.concat chunks)) /\
      Bench.progress_calls evs =
        match cb with
        | Some _ => map (fun s => (progress_percent s n, s, n)) (running_totals sent chunks)
        | None => []
        end.
Proof.
  induction fuel as [|fuel IH]; intros rest sent w sent' w'; simpl.
  - destruct (file_read chunk_size rest) as [[[|x chunk] rest0]|e];
      intros [= <- <-]; exists [], [], rest; rewrite app_nil_r; simpl;
      (repeat split; [lia|now destruct cb]).
  - destruct (file_read chunk_size rest) as [[[|x chunk] rest0]|e] eqn:Hread;
      [| |unfold raise; discriminate].
    + intros [= <- <-]. exists [], [], rest. rewrite app_nil_r. simpl.
      repeat split; [lia|now destruct cb].
    + unfold bind.
      destruct (send_chunk ser cb n (x :: chunk) sent w) as [[sent1|e] w1] eqn:Hsend;
        [|discriminate].
      intros Hloop.
      destruct (send_chunk_events _ _ _ _ _ _ _ _ Hsend) as (Hs1 & evs1 & Htr1 & Hw1 & Hp1).
      destruct (file_read_split _ _ _ _ Hread) as [Hsplit _].
      destruct (IH _ _ _ _ _ Hloop) as (evs & chunks & rest' & Htr & Hw & Hcat & Hs & Hp).
      exists (evs1 ++ evs), ((x :: chunk) :: chunks), rest'.
      rewrite Htr, Htr1, app_assoc, writes_app, Hw1, Hw, progress_calls_app, Hp1, Hp.
      split; [reflexivity|]. split; [reflexivity|].
      split; [rewrite Hsplit, Hcat; simpl; now rewrite <- app_assoc|].
      split.
      * rewrite Hs, Hs1. change (List.concat ((x :: chunk) :: chunks))
          with ((x :: chunk) ++ List.concat chunks). rewrite length_app. lia.
      * destruct cb; [|reflexivity]. simpl. now rewrite Hs1.
Qed.

Lemma upload_start_events ser (w w0 : world E) :
  upload_start ser w = (Ret tt, w0) ->
  exists evs,
    trace w0 = trace w ++ evs /\
    writes evs = [b ("UPLOAD_START" ++ LF)] /\ Bench.progress_calls evs = [].
Proof.
  unfold upload_start, bind, reset_input_buffer, reset_output_buffer, write, io_call, sleep.
  destruct (sys_reset_input _ _) as [[f|] e1]; [discriminate|].
  destruct (sys_reset_output _ _) as [[f|] e2]; [discriminate|].
  destruct (sys_write _ _ _) as [[f|] e3]; [discriminate|].
  intros [= <-]. simpl. eexists. rewrite <- !app_assoc. now repeat split.
Qed.

(** A successful upload ran the body of the [try] to its end. *)
Lemma upload_firmware_success_body (self : FirmwareUploader) path chunk_size
  (cb : option (callback E)) (w w' : world E) r :
  upload_firmware self path chunk_size cb w = (Ret r, w') ->
  success r = true ->
  exists ser, serial_conn self = Some ser /\ is_open ser w = true /\
              upload_body ser path chunk_size cb w = (Ret r, w').
Proof.
  intros Hrun Hok. unfold upload_firmware in Hrun.
  destruct (serial_conn self) as [ser|];
    [|injection Hrun as <- <-; discriminate Hok].
  destruct (is_open ser w) eqn:Hopen; simpl in Hrun;
    [|injection Hrun as <- <-; discriminate Hok].
  exists ser. split; [reflexivity|]. split; [exact Hopen|].
  unfold try_except in Hrun.
  destruct (upload_body ser path chunk_size cb w) as [[r0|e] w1]; [exact Hrun|].
  unfold upload_handler in Hrun.
  repeat match type of Hrun with
         | context [if ?c then _ else _] => destruct c
         end;
    try (injection Hrun as <- <-; discriminate Hok); discriminate Hrun.
Qed.

(** The body, run to its end: the loop inside it, and the result built
    from its count. *)
Lemma upload_body_loop ser path chunk_size (cb : option (callback E)) content
  (w w' : world E) r :
  sys_file path (env w) = Regular content ->
  upload_body ser path chunk_size cb w = (Ret r, w') ->
  exists w0 sent wl evs0 data,
    upload_loop (List.length content) ser chunk_size cb (Z.of_nat (List.length content))
      content 0 w0 = (Ret sent, wl) /\
    trace w0 = trace w ++ evs0 /\
    writes evs0 = [b ("UPLOAD_START" ++ LF)] /\ Bench.progress_calls evs0 = [] /\
    trace w' = trace wl ++ [EvWrite (ser_port ser) (b (LF ++ "UPLOAD_COMPLETE" ++ LF));
                            EvSleep 500; EvRead (ser_port ser) 100; EvFileClose path] /\
    r = {| success := true;
           message := "Successfully uploaded " ++ str_int sent ++ " bytes";
           bytes_sent := Some sent;
           response := Some (decode_utf8_ignore (firstn 100 data)) |}.
Proof.
  intros Hfile. unfold upload_body, with_file.
  change (env (log (EvFileOpen path) w)) with (env w). rewrite Hfile.
  unfold finally, bind at 1.
  destruct (upload_start ser (log (EvFileOpen path) w)) as [[[]|e] w0] eqn:Hstart;
    [|discriminate].
  unfold bind at 1.
  destruct (upload_loop _ ser chunk_size cb _ content 0 w0) as [[sent|e] wl] eqn:Hloop;
    [|discriminate].
  unfold bind, write, io_call, sleep, read, ret.
  destruct (sys_write _ _ _) as [[f|] e1]; [discriminate|].
  destruct (sys_read _ _ _) as [[f|data] e2]; [discriminate|].
  intros [= <- <-].
  destruct (upload_start_events _ _ _ Hstart) as (evs0 & Htr0 & Hw0 & Hp0).
  exists w0, sent, wl, ([EvFileOpen path] ++ evs0), data.
  split; [exact Hloop|].
  split; [rewrite Htr0; simpl; now rewrite <- app_assoc|].
  split; [exact Hw0|]. split; [exact Hp0|].
  split; [simpl; now rewrite <- !app_assoc|reflexivity].
Qed.

End UploadReports.
Lemma last_map_nonempty {A B} (f : A -> B) (l : list A) (d : B) (d' : A) :
  l <> [] -> last (map f l) d = f (last l d').
Proof.
  induction l as [|x l IH]; [congruence|]. intros _.
  destruct l as [|y l]; [reflexivity|].
  change (last (map f (x :: y :: l)) d) with (last (map f (y :: l)) d).
  change (last (x :: y :: l) d') with (last (y :: l) d').
  apply IH. discriminate.
Qed.

Section UploadEdges.

Context {E : Type} {P : Platform E}.

(** X16: nothing to send.  With an empty firmware file, or with a chunk
    size of 0 whatever the file holds, an upload that succeeds reports
    0 bytes sent: only the two markers are written and the callback is
    never called. *)
Theorem upload_firmware_nothing_sent (self : FirmwareUploader) (firmware_path : string)
  (chunk_size : Z) (progress_callback : option (callback E))
  (content : bytes) (w w' : world E) (r : upload_result) :
  sys_file firmware_path (env w) = Regular content ->
  content = [] \/ chunk_size = 0 ->
  upload_firmware self firmware_path chunk_size progress_callback w = (Ret r, w') ->
  success r = true ->
  bytes_sent r = Some 0 /\
  message r = "Successfully uploaded 0 bytes" /\
  exists evs,
    trace w' = trace w ++ evs /\
    writes evs = [b ("UPLOAD_START" ++ LF); b (LF ++ "UPLOAD_COMPLETE" ++ LF)] /\
    Bench.progress_calls evs = [].
Proof.
  intros Hfile Hcase Hrun Hok.
  destruct (upload_firmware_success_body _ _ _ _ _ _ _ Hrun Hok) as (ser & _ & _ & Hbody).
  destruct (upload_body_loop _ _ _ _ _ _ _ _ Hfile Hbody)
    as (w0 & sent & wl & evs0 & data & Hloop & Htr0 & Hw0 & Hp0 & Htr & ->).
  assert (Hread : forall chunk rest',
             file_read chunk_size content = Ret (chunk, rest') -> chunk = []).
  { intros chunk rest'. destruct Hcase as [->| ->]; [|now intros [= <- <-]].
    unfold file_read. destruct (chunk_size <? -1); [discriminate|].
    destruct (chunk_size <? 0); intros [= <- <-]; [reflexivity|apply firstn_nil]. }
  assert (Hret : sent = 0 /\ wl = w0).
  { destruct (List.length content); simpl in Hloop;
      destruct (file_read chunk_size content) as [[chunk rest']|e];
      try discriminate Hloop;
      rewrite (Hread _ _ eq_refl) in Hloop; now injection Hloop as <- <-. }
  destruct Hret as [-> ->].
  split; [reflexivity|]. split; [reflexivity|].
  eexists. rewrite Htr, Htr0, <- app_assoc. split; [reflexivity|].
  rewrite writes_app, progress_calls_app, Hw0, Hp0. now split.
Qed.

(** A chunk size below [-1]: the first read of the loop raises, whatever
    the file holds. *)
Lemma upload_loop_invalid_read ser chunk_size (cb : option (callback E)) n fuel rest sent
  (w : world E) :
  chunk_size < -1 ->
  upload_loop fuel ser chunk_size cb n rest sent w = (Raise invalid_read_length, w).
Proof.
  intros Hsize.
  assert (Hread : file_read chunk_size rest = Raise invalid_read_length)
    by (now apply file_read_raises).
  destruct fuel; simpl; now rewrite Hread.
Qed.

(** X17: a negative chunk size.  With a chunk size of [-1] the file is
    read to its end at once: an upload that succeeds has sent the whole
    file in a single write, and a callback is called once, with 100
    percent.  With a chunk size below [-1] the first read raises
    [ValueError]: the upload never succeeds, and when the start marker
    has been sent the result is the failure of the last [except] clause
    with the description of that error, nothing of the file being
    written and the callback never called. *)
Theorem upload_firmware_negative_chunk_size (self : FirmwareUploader)
  (firmware_path : string) (chunk_size : Z) (progress_callback : option (callback E))
  (content : bytes) (w : world E) :
  sys_file firmware_path (env w) = Regular content ->
  (chunk_size = -1 ->
   content <> [] ->
   forall r w',
     upload_firmware self firmware_path chunk_size progress_callback w = (Ret r, w') ->
     success r = true ->
     let n := Z.of_nat (List.length content) in
     bytes_sent r = Some n /\
     exists evs,
       trace w' = trace w ++ evs /\
       writes evs = [b ("UPLOAD_START" ++ LF); content; b (LF ++ "UPLOAD_COMPLETE" ++ LF)] /\
       Bench.progress_calls evs =
         match progress_callback with
         | Some _ => [(100, n, n)]
         | None => []
         end) /\
  (chunk_size < -1 ->
   (forall r w',
      upload_firmware self firmware_path chunk_size progress_callback w = (Ret r, w') ->
      success r = false) /\
   (forall ser w0,
      serial_conn self = Some ser ->
      is_open ser w = true ->
      upload_start ser (log (EvFileOpen firmware_path) w) = (Ret tt, w0) ->
      upload_firmware self firmware_path chunk_size progress_callback w
        = (Ret (failure "Upload failed: read length must be non-negative or -1"),
           log (EvFileClose firmware_path) w0))).
Proof.
  intros Hfile. split.
  - intros -> Hne r w' Hrun Hok n.
    destruct (upload_firmware_success_body _ _ _ _ _ _ _ Hrun Hok) as (ser & _ & _ & Hbody).
    destruct (upload_body_loop _ _ _ _ _ _ _ _ Hfile Hbody)
      as (w0 & sent & wl & evs0 & data & Hloop & Htr0 & Hw0 & Hp0 & Htr & ->).
    destruct content as [|x content]; [congruence|].
    cbn [List.length upload_loop] in Hloop.
    change (file_read (-1) (x :: content)) with (Ret (A:=bytes * bytes) (x :: content, []))
      in Hloop.
    cbv iota beta in Hloop. unfold bind in Hloop.
    destruct (send_chunk ser progress_callback _ (x :: content) 0 w0)
      as [[sent1|e] w1] eqn:Hsend; [|discriminate].
    destruct (send_chunk_events _ _ _ _ _ _ _ _ Hsend) as (Hs1 & evs1 & Htr1 & Hw1 & Hp1).
    assert (Hend : sent = sent1 /\ wl = w1).
    { destruct (List.length content); simpl in Hloop; now injection Hloop as <- <-. }
    destruct Hend as [-> ->]. simpl in Hs1. subst sent1.
    split; [reflexivity|].
    eexists. rewrite Htr, Htr1, Htr0, <- !app_assoc. split; [reflexivity|].
    rewrite !writes_app, !progress_calls_app, Hw0, Hp0, Hw1, Hp1.
    split; [reflexivity|].
    destruct progress_callback; [|reflexivity]. simpl.
    subst n. rewrite progress_percent_full by (simpl; lia). reflexivity.
  - intros Hsize. split.
    + intros r w' Hrun. destruct (success r) eqn:Hok; [exfalso|reflexivity].
      destruct (upload_firmware_success_body _ _ _ _ _ _ _ Hrun Hok) as (ser & _ & _ & Hbody).
      destruct (upload_body_loop _ _ _ _ _ _ _ _ Hfile Hbody)
        as (w0 & sent & wl & evs0 & data & Hloop & _).
      rewrite upload_loop_invalid_read in Hloop by exact Hsize. discriminate Hloop.
    + intros ser w0 Hconn Hopen Hstart.
      unfold upload_firmware. rewrite Hconn, Hopen. simpl negb. cbv iota.
      unfold try_except, upload_body, with_file.
      change (env (log (EvFileOpen firmware_path) w)) with (env w). rewrite Hfile.
      unfold finally, bind at 1. rewrite Hstart.
      unfold bind at 1. rewrite upload_loop_invalid_read by exact Hsize.
      reflexivity.
Qed.

(** X18: the calls of the progress callback in a successful upload with
    a positive chunk size.  There is one call per chunk, after the chunk
    is written; the call after chunk [i + 1] reports
    [min ((i + 1) * chunk_size, n)] bytes sent out of [n], with the
    percentage computed from these two; the last call reports all [n]
    bytes and 100 percent.  Without a callback there is no call. *)
Theorem upload_firmware_progress_calls (self : FirmwareUploader) (firmware_path : string)
  (chunk_size : Z) (progress_callback : option (callback E))
  (content : bytes) (w w' : world E) (r : upload_result) :
  sys_file firmware_path (env w) = Regular content ->
  0 < Z.of_nat (List.length content) ->
  0 < chunk_size ->
  upload_firmware self firmware_path chunk_size progress_callback w = (Ret r, w') ->
  success r = true ->
  let n := Z.of_nat (List.length content) in
  exists evs chunks,
    trace w' = trace w ++ evs /\
    writes evs = b ("UPLOAD_START" ++ LF) :: chunks ++ [b (LF ++ "UPLOAD_COMPLETE" ++ LF)] /\
    (progress_callback = None -> Bench.progress_calls evs = []) /\
    (progress_callback <> None ->
     Bench.progress_calls evs
       = map (fun s => (progress_percent s n, s, n)) (running_totals 0 chunks) /\
     List.length (Bench.progress_calls evs) = List.length chunks /\
     last (Bench.progress_calls evs) (0, 0, 0) = (100, n, n)) /\
    (forall i s, nth_error (running_totals 0 chunks) i = Some s ->
       s = Z.min ((Z.of_nat i + 1) * chunk_size) n).
Proof.
  intros Hfile Hn Hsize Hrun Hok n.
  destruct (upload_firmware_success_body _ _ _ _ _ _ _ Hrun Hok) as (ser & _ & _ & Hbody).
  destruct (upload_body_loop _ _ _ _ _ _ _ _ Hfile Hbody)
    as (w0 & sent & wl & evs0 & data & Hloop & Htr0 & Hw0 & Hp0 & Htr & ->).
  destruct (upload_loop_events _ _ _ _ _ _ _ _ _ _ Hloop)
    as (evs & chunks & rest' & Htrl & Hw & _ & _ & Hp).
  destruct (upload_loop_ret _ _ _ _ Hsize _ _ _ _ _ _ (Nat.le_refl _) Hloop)
    as (_ & evs2 & chunks2 & Htrl2 & Hw2 & Hcat & Hch).
  assert (evs2 = evs) by (rewrite Htrl in Htrl2; now apply app_inv_head in Htrl2).
  subst evs2. rewrite Hw in Hw2. subst chunks2.
  assert (Hne : chunks <> []).
  { intros Hnil. rewrite Hnil in Hcat. simpl in Hcat. rewrite <- Hcat in Hn.
    simpl in Hn. lia. }
  eexists; exists chunks. rewrite Htr, Htrl, Htr0, <- !app_assoc.
  split; [reflexivity|].
  rewrite !writes_app, !progress_calls_app, Hw0, Hp0, Hw, Hp.
  split; [reflexivity|]. split; [|split].
  - intros ->. reflexivity.
  - intros Hcb. destruct progress_callback as [cb|]; [|congruence].
    simpl. rewrite app_nil_r. split; [reflexivity|].
    split; [now rewrite length_map, running_totals_length|].
    rewrite (last_map_nonempty _ _ _ 0)
      by (destruct chunks; [congruence|discriminate]).
    rewrite running_totals_last, Hcat by exact Hne.
    fold n. simpl. now rewrite progress_percent_full.
  - intros i s Hnth.
    rewrite (running_totals_chunked _ _ Hch _ _ _ Hnth), Hcat, Z2Nat.id by lia.
    reflexivity.
Qed.

End UploadEdges.
Section UploadCalls.

Context {E : Type} {P : Platform E}.

(** ** The calls of a successful upload *)

Lemma send_chunk_calls ser (cb : option (callback E)) n chunk sent (w : world E) sent1 w1 :
  send_chunk ser cb n chunk sent w = (Ret sent1, w1) ->
  sent1 = sent + Z.of_nat (List.length chunk) /\
  trace w1 = trace w ++ chunk_calls (ser_port ser) (given cb) n sent [chunk].
Proof.
  unfold send_chunk, bind, write, io_call, sleep, ret.
  destruct (sys_write _ _ _) as [[f|] e]; [discriminate|].
  destruct cb as [cb|].
  - unfold call_progress.
    destruct (cb _ _ _ _) as [[x|] e']; [discriminate|].
    intros [= <- <-]. split; [reflexivity|]. simpl. now rewrite <- !app_assoc.
  - intros [= <- <-]. split; [reflexivity|]. simpl. now rewrite <- !app_assoc.
Qed.

Lemma chunk_calls_cons port_name with_callback n sent chunk chunks :
  chunk_calls port_name with_callback n sent (chunk :: chunks)
  = chunk_calls port_name with_callback n sent [chunk]
    ++ chunk_calls port_name with_callback n (sent + Z.of_nat (List.length chunk)) chunks.
Proof. simpl. destruct with_callback; reflexivity. Qed.

Lemma upload_loop_calls ser chunk_size (cb : option (callback E)) n :
  forall fuel rest sent (w : world E) sent' w',
    upload_loop fuel ser chunk_size cb n rest sent w = (Ret sent', w') ->
    exists chunks rest',
      trace w' = trace w ++ chunk_calls (ser_port ser) (given cb) n sent chunks /\
      rest = List.concat chunks ++ rest' /\
      sent' = sent + Z.of_nat (List.length (List.concat chunks)).
Proof.
  induction fuel as [|fuel IH]; intros rest sent w sent' w'; simpl.
  - destruct (file_read chunk_size rest) as [[[|x chunk] rest0]|e];
      intros [= <- <-]; exists [], rest; rewrite app_nil_r; simpl;
      (repeat split; lia).
  - destruct (file_read chunk_size rest) as [[[|x chunk] rest0]|e] eqn:Hread;
      [| |unfold raise; discriminate].
    + intros [= <- <-]. exists [], rest. rewrite app_nil_r. simpl. repeat split; lia.
    + unfold bind.
      destruct (send_chunk ser cb n (x :: chunk) sent w) as [[sent1|e] w1] eqn:Hsend;
        [|discriminate].
      intros Hloop.
      destruct (send_chunk_calls _ _ _ _ _ _ _ _ Hsend) as (Hs1 & Htr1).
      destruct (file_read_split _ _ _ _ Hread) as [Hsplit _].
      destruct (IH _ _ _ _ _ Hloop) as (chunks & rest' & Htr & Hcat & Hs).
      exists ((x :: chunk) :: chunks), rest'.
      rewrite (chunk_calls_cons _ _ _ _ (x :: chunk)), <- Hs1, app_assoc, <- Htr1, <- Htr.
      split; [reflexivity|].
      split; [rewrite Hsplit, Hcat; simpl; now rewrite <- app_assoc|].
      rewrite Hs, Hs1. change (List.concat ((x :: chunk) :: chunks))
        with ((x :: chunk) ++ List.concat chunks). rewrite length_app. lia.
Qed.

(** X19: the calls of an upload that succeeds, in order: the file is
    opened, the input then the output buffer are cleared, the start
    marker is written, 500 ms pass; then for each chunk the write, the
    call of the callback if there is one, and a pause of 10 ms; then the
    completion marker, 500 ms, a read of up to 100 bytes, and the file
    is closed.  The chunks are consecutive pieces of the file from its
    start, [bytes_sent] is their total length, and the message states
    that count. *)
Theorem upload_firmware_calls (self : FirmwareUploader) (firmware_path : string)
  (chunk_size : Z) (progress_callback : option (callback E))
  (content : bytes) (w w' : world E) (r : upload_result) :
  sys_file firmware_path (env w) = Regular content ->
  upload_firmware self firmware_path chunk_size progress_callback w = (Ret r, w') ->
  success r = true ->
  exists ser chunks rest',
    serial_conn self = Some ser /\
    content = List.concat chunks ++ rest' /\
    bytes_sent r = Some (Z.of_nat (List.length (List.concat chunks))) /\
    message r = ("Successfully uploaded "
                 ++ str_int (Z.of_nat (List.length (List.concat chunks))) ++ " bytes")%string /\
    trace w' = trace w ++
      [EvFileOpen firmware_path; EvResetInput (ser_port ser); EvResetOutput (ser_port ser);
       EvWrite (ser_port ser) (b ("UPLOAD_START" ++ LF)); EvSleep 500] ++
      chunk_calls (ser_port ser) (given progress_callback)
        (Z.of_nat (List.length content)) 0 chunks ++
      [EvWrite (ser_port ser) (b (LF ++ "UPLOAD_COMPLETE" ++ LF)); EvSleep 500;
       EvRead (ser_port ser) 100; EvFileClose firmware_path].
Proof.
  intros Hfile Hrun Hok.
  destruct (upload_firmware_success_body _ _ _ _ _ _ _ Hrun Hok)
    as (ser & Hconn & _ & Hbody).
  exists ser. revert Hbody. unfold upload_body, with_file.
  change (env (log (EvFileOpen firmware_path) w)) with (env w). rewrite Hfile.
  unfold finally, bind at 1.
  unfold upload_start, bind at 1 2 3, reset_input_buffer, reset_output_buffer.
  unfold write at 1, io_call, sleep at 1.
  destruct (sys_reset_input _ _) as [[f|] e1]; [discriminate|].
  destruct (sys_reset_output _ _) as [[f|] e2]; [discriminate|].
  destruct (sys_write _ _ _) as [[f|] e3]; [discriminate|].
  unfold bind at 1.
  match goal with |- context [upload_loop ?fu ser chunk_size ?c ?n content 0 ?w0] =>
    destruct (upload_loop fu ser chunk_size c n content 0 w0) as [[sent|e] wl] eqn:Hloop;
      [|discriminate] end.
  unfold bind, write, io_call, sleep, read, ret.
  destruct (sys_write _ _ _) as [[f|] e4]; [discriminate|].
  destruct (sys_read _ _ _) as [[f|data] e5]; [discriminate|].
  intros [= <- <-].
  destruct (upload_loop_calls _ _ _ _ _ _ _ _ _ _ Hloop) as (chunks & rest' & Htr & Hcat & ->).
  exists chunks, rest'. split; [exact Hconn|]. split; [exact Hcat|].
  split; [reflexivity|]. split; [reflexivity|].
  simpl in *. rewrite Htr. simpl. now rewrite <- !app_assoc.
Qed.

End UploadCalls.
(** ** Runs on the test benches *)

Lemma detect_device_releases_witness :
  exists found w',
    detect_device true (Bench.boot DetectionScenario.mixed_bench) = (Ret found, w') /\
    open_handles w' = [].
Proof.
  apply (detect_device_releases true (Bench.boot DetectionScenario.mixed_bench)).
  constructor.
Defined.

Lemma detect_device_from_ports_witness :
  exists c w' port,
    detect_device true (Bench.boot DetectionScenario.mixed_bench) = (Ret (Some c), w') /\
    In port (Bench.attached DetectionScenario.mixed_bench) /\
    cand_port c = device port.
Proof.
  destruct (detect_device true (Bench.boot DetectionScenario.mixed_bench))
    as [[[c|]|e] w'] eqn:Hrun;
    [|vm_compute in Hrun; discriminate Hrun|vm_compute in Hrun; discriminate Hrun].
  destruct (detect_device_from_ports true (Bench.boot DetectionScenario.mixed_bench) w' c Hrun)
    as (port & Hin & Hport & _).
  exists c, w', port. split; [reflexivity|]. split; [exact Hin|exact Hport].
Defined.

Lemma detect_device_agrees_with_listing_witness :
  exists c w' port,
    detect_device true (Bench.boot DetectionScenario.mixed_bench) = (Ret (Some c), w') /\
    In port (Bench.attached DetectionScenario.mixed_bench) /\
    entry_device_type (device_entry_of port) = cand_device_type c.
Proof.
  destruct (detect_device true (Bench.boot DetectionScenario.mixed_bench))
    as [[[c|]|e] w'] eqn:Hrun;
    [|vm_compute in Hrun; discriminate Hrun|vm_compute in Hrun; discriminate Hrun].
  destruct (detect_device_agrees_with_listing true
              (Bench.boot DetectionScenario.mixed_bench) w' c Hrun)
    as (port & Hin & _ & Htype & _).
  exists c, w', port. split; [reflexivity|]. split; [exact Hin|exact Htype].
Defined.

Lemma upload_session_releases_witness :
  conn_is_open CallbackScenario.uploader
    (snd (finally (upload_firmware CallbackScenario.uploader "firmware.bin" 64 None)
                  (close_connection CallbackScenario.uploader)
                  CallbackScenario.connected)) = false /\
  open_handles
    (snd (finally (upload_firmware CallbackScenario.uploader "firmware.bin" 64 None)
                  (close_connection CallbackScenario.uploader)
                  CallbackScenario.connected)) = [].
Proof.
  assert (Hfresh : fresh_handles (Bench.boot (Scenario.firmware_bench 130)))
    by constructor.
  assert (Hopen : open_connection (FirmwareUploader_init "COM3" 115200)
                    (Bench.boot (Scenario.firmware_bench 130))
                  = (Ret (true, CallbackScenario.uploader), CallbackScenario.connected))
    by reflexivity.
  destruct (upload_session_releases (FirmwareUploader_init "COM3" 115200)
              CallbackScenario.uploader "firmware.bin" 64 None
              (Bench.boot (Scenario.firmware_bench 130)) CallbackScenario.connected
              Hfresh Hopen) as (_ & Hclosed & Hhandles).
  split; [exact Hclosed|exact Hhandles].
Defined.

Lemma upload_firmware_unreadable_file_witness :
  upload_firmware Flaky.uploader "firmware.bin" 64 None (Flaky.connected Flaky.locked)
  = (Ret (failure "Upload failed: [Errno 13] Permission denied"),
     log (EvFileOpen "firmware.bin") (Flaky.connected Flaky.locked)).
Proof.
  apply (upload_firmware_unreadable_file Flaky.uploader "firmware.bin" 64 None
           (Flaky.connected Flaky.locked) "[Errno 13] Permission denied");
    reflexivity.
Defined.

Lemma upload_firmware_write_fails_witness :
  exists w',
    upload_firmware Flaky.uploader "firmware.bin" 64 None (Flaky.connected Flaky.two_writes)
      = (Ret (failure "Serial communication error: device disconnected"), w') /\
    is_open Flaky.channel w' = true.
Proof.
  assert (Hconn : serial_conn Flaky.uploader = Some Flaky.channel) by reflexivity.
  assert (Hopen : is_open Flaky.channel (Flaky.connected Flaky.two_writes) = true)
    by reflexivity.
  assert (Hfile : sys_file "firmware.bin" (env (Flaky.connected Flaky.two_writes))
                  = Regular (repeat "000"%byte 130)) by reflexivity.
  assert (Hreach : upload_reaches Flaky.channel "firmware.bin" 64 None
                     (repeat "000"%byte 130) (Flaky.connected Flaky.two_writes)
                     (skipn 64 (repeat "000"%byte 130)) 64 Flaky.after_turn).
  { exists Flaky.at_loop. split; [reflexivity|].
    apply turns_more with (chunk := firstn 64 (repeat "000"%byte 130))
                          (rest1 := skipn 64 (repeat "000"%byte 130))
                          (sent1 := 64) (w1 := Flaky.after_turn);
      [reflexivity|discriminate|reflexivity|apply turns_none]. }
  assert (Hread : file_read 64 (skipn 64 (repeat "000"%byte 130))
                  = Ret (firstn 64 (skipn 64 (repeat "000"%byte 130)),
                         skipn 64 (skipn 64 (repeat "000"%byte 130)))) by reflexivity.
  assert (Hne : firstn 64 (skipn 64 (repeat "000"%byte 130)) <> []) by discriminate.
  assert (Hfail : sys_write (ser_port Flaky.channel)
                    (firstn 64 (skipn 64 (repeat "000"%byte 130))) (env Flaky.after_turn)
                  = (Some Flaky.disconnected, env Flaky.after_turn)) by reflexivity.
  destruct (upload_firmware_write_fails Flaky.uploader Flaky.channel "firmware.bin" 64 None
              (repeat "000"%byte 130) (Flaky.connected Flaky.two_writes) Flaky.after_turn
              _ _ _ 64 Flaky.disconnected (env Flaky.after_turn)
              Hconn Hopen Hfile Hreach Hread Hne Hfail)
    as (w' & Hrun & _ & _ & Hstill).
  exists w'. split; [exact Hrun|exact Hstill].
Defined.

Lemma upload_firmware_nothing_sent_witness :
  exists r w',
    upload_firmware CallbackScenario.uploader "firmware.bin" 0 (Some Bench.quiet)
      CallbackScenario.connected = (Ret r, w') /\
    bytes_sent r = Some 0 /\ message r = "Successfully uploaded 0 bytes".
Proof.
  destruct (upload_firmware CallbackScenario.uploader "firmware.bin" 0 (Some Bench.quiet)
              CallbackScenario.connected) as [[r|e] w'] eqn:Hrun;
    [|vm_compute in Hrun; discriminate Hrun].
  assert (Hok : success r = true)
    by (vm_compute in Hrun; injection Hrun as <- _; reflexivity).
  assert (Hfile : sys_file "firmware.bin" (env CallbackScenario.connected)
                  = Regular CallbackScenario.firmware) by reflexivity.
  destruct (upload_firmware_nothing_sent CallbackScenario.uploader "firmware.bin" 0
              (Some Bench.quiet) CallbackScenario.firmware CallbackScenario.connected w' r
              Hfile (or_intror eq_refl) Hrun Hok) as (Hsent & Hmsg & _).
  exists r, w'. split; [reflexivity|]. split; [exact Hsent|exact Hmsg].
Defined.

Lemma upload_firmware_negative_chunk_size_witness :
  (exists r w' evs,
     upload_firmware CallbackScenario.uploader "firmware.bin" (-1) (Some Bench.quiet)
       CallbackScenario.connected = (Ret r, w') /\
     bytes_sent r = Some 130 /\
     trace w' = trace CallbackScenario.connected ++ evs /\
     Bench.progress_calls evs = [(100, 130, 130)]) /\
  upload_firmware CallbackScenario.uploader "firmware.bin" (-2) (Some Bench.quiet)
    CallbackScenario.connected
  = (Ret (failure "Upload failed: read length must be non-negative or -1"),
     log (EvFileClose "firmware.bin") CallbackScenario.at_loop).
Proof.
  assert (Hfile : sys_file "firmware.bin" (env CallbackScenario.connected)
                  = Regular CallbackScenario.firmware) by reflexivity.
  split.
  - destruct (upload_firmware CallbackScenario.uploader "firmware.bin" (-1)
                (Some Bench.quiet) CallbackScenario.connected) as [[r|e] w'] eqn:Hrun;
      [|vm_compute in Hrun; discriminate Hrun].
    assert (Hok : success r = true)
      by (vm_compute in Hrun; injection Hrun as <- _; reflexivity).
    assert (Hne : CallbackScenario.firmware <> []) by discriminate.
    destruct (proj1 (upload_firmware_negative_chunk_size CallbackScenario.uploader
                       "firmware.bin" (-1) (Some Bench.quiet) CallbackScenario.firmware
                       CallbackScenario.connected Hfile)
                eq_refl Hne r w' Hrun Hok) as (Hsent & evs & Htr & _ & Hp).
    exists r, w', evs. split; [reflexivity|]. split; [exact Hsent|].
    split; [exact Htr|exact Hp].
  - assert (Hsize : -2 < -1) by lia.
    assert (Hconn : serial_conn CallbackScenario.uploader = Some CallbackScenario.channel)
      by reflexivity.
    assert (Hopen : is_open CallbackScenario.channel CallbackScenario.connected = true)
      by reflexivity.
    assert (Hstart : upload_start CallbackScenario.channel
                       (log (EvFileOpen "firmware.bin") CallbackScenario.connected)
                     = (Ret tt, CallbackScenario.at_loop)) by reflexivity.
    exact (proj2 (proj2 (upload_firmware_negative_chunk_size CallbackScenario.uploader
                           "firmware.bin" (-2) (Some Bench.quiet) CallbackScenario.firmware
                           CallbackScenario.connected Hfile) Hsize)
             CallbackScenario.channel CallbackScenario.at_loop Hconn Hopen Hstart).
Defined.

Lemma upload_firmware_progress_calls_witness :
  exists r w' evs (chunks : list bytes),
    upload_firmware CallbackScenario.uploader "firmware.bin" 64 (Some Bench.quiet)
      CallbackScenario.connected = (Ret r, w') /\
    trace w' = trace CallbackScenario.connected ++ evs /\
    List.length (Bench.progress_calls evs) = List.length chunks /\
    last (Bench.progress_calls evs) (0, 0, 0) = (100, 130, 130).
Proof.
  destruct (upload_firmware CallbackScenario.uploader "firmware.bin" 64 (Some Bench.quiet)
              CallbackScenario.connected) as [[r|e] w'] eqn:Hrun;
    [|vm_compute in Hrun; discriminate Hrun].
  assert (Hok : success r = true)
    by (vm_compute in Hrun; injection Hrun as <- _; reflexivity).
  assert (Hfile : sys_file "firmware.bin" (env CallbackScenario.connected)
                  = Regular CallbackScenario.firmware) by reflexivity.
  assert (Hn : 0 < Z.of_nat (List.length CallbackScenario.firmware)) by (simpl; lia).
  assert (Hsize : 0 < 64) by lia.
  destruct (upload_firmware_progress_calls CallbackScenario.uploader "firmware.bin" 64
              (Some Bench.quiet) CallbackScenario.firmware CallbackScenario.connected w' r
              Hfile Hn Hsize Hrun Hok) as (evs & chunks & Htr & _ & _ & Hcalls & _).
  destruct (Hcalls ltac:(discriminate)) as (_ & Hlen & Hlast).
  exists r, w', evs, chunks. split; [reflexivity|]. split; [exact Htr|].
  split; [exact Hlen|exact Hlast].
Defined.

Lemma upload_firmware_calls_witness :
  exists r w' chunks rest',
    upload_firmware CallbackScenario.uploader "firmware.bin" 64 None
      CallbackScenario.connected = (Ret r, w') /\
    CallbackScenario.firmware = List.concat chunks ++ rest' /\
    bytes_sent r = Some (Z.of_nat (List.length (List.concat chunks))).
Proof.
  destruct (upload_firmware CallbackScenario.uploader "firmware.bin" 64 None
              CallbackScenario.connected) as [[r|e] w'] eqn:Hrun;
    [|vm_compute in Hrun; discriminate Hrun].
  assert (Hok : success r = true)
    by (vm_compute in Hrun; injection Hrun as <- _; reflexivity).
  assert (Hfile : sys_file "firmware.bin" (env CallbackScenario.connected)
                  = Regular CallbackScenario.firmware) by reflexivity.
  destruct (upload_firmware_calls CallbackScenario.uploader "firmware.bin" 64 None
              CallbackScenario.firmware CallbackScenario.connected w' r Hfile Hrun Hok)
    as (ser & chunks & rest' & _ & Hcat & Hsent & _).
  exists r, w', chunks, rest'. split; [reflexivity|]. split; [exact Hcat|exact Hsent].
Defined.

